(** * The breathing-practice timer of script.js

    A shallow embedding of [fmt] and of [practiceController] (the closure
    variables, the page elements it writes to and the browser's interval
    table), followed by the properties of the timer.

    Conventions of the embedding.
    - The numbers of the script are integers (second counts and an array
      index); they are modelled by [Z].  A JavaScript Number is a double,
      which is exact on the integers of magnitude below 2^53, the range in
      which [Z] and the script agree.
    - A JavaScript string is modelled by [string], one [ascii] per code
      unit (code units below 256).
    - The page elements looked up by [document.getElementById] are present;
      a property of an element is the value last assigned to it.
    - A function that can throw returns [option]: [None] is the [TypeError]
      of reading a property of [undefined]. *)

From Stdlib Require Import ZArith List String Ascii Bool Lia.
Import ListNotations.
Open Scope string_scope.
Open Scope Z_scope.

(** ** The JavaScript primitives the script calls *)

Module JS.

(** [Number.prototype.toString] on an integer: its decimal digits, most
    significant first, after a minus sign when it is negative. *)
Definition digit_char (d : Z) : ascii := ascii_of_nat (48 + Z.to_nat d).

Fixpoint digits_fuel (fuel : nat) (n : Z) (acc : string) : string :=
  match fuel with
  | O => acc
  | S fuel' =>
      let acc' := String (digit_char (n mod 10)) acc in
      if n <? 10 then acc' else digits_fuel fuel' (n / 10) acc'
  end.

Definition digits (n : Z) : string :=
  digits_fuel (S (Z.to_nat (Z.log2 n))) n EmptyString.

Definition toString (n : Z) : string :=
  if n <? 0 then String "-" (digits (- n)) else digits n.

(** [String.prototype.padStart (targetLength, padString)]. *)
Fixpoint cycle (pad : string) (k : nat) : string :=
  match k with
  | O => EmptyString
  | S k' => pad ++ cycle pad k'
  end.

Definition padStart (s : string) (targetLength : nat) (padString : string)
  : string :=
  let len := String.length s in
  if (targetLength <=? len)%nat then s
  else match padString with
       | EmptyString => s
       | _ => substring 0 (targetLength - len)
                (cycle padString (targetLength - len)) ++ s
       end.

(** [parseInt (string, 10)]: leading white space is skipped, one sign is
    read, then the longest run of decimal digits; [None] is NaN (no
    digit).  Radix 10 strips no [0x] prefix. *)
Definition is_white_space (c : ascii) : bool :=
  let n := nat_of_ascii c in
  ((9 <=? n) && (n <=? 13) || (n =? 32) || (n =? 160))%nat.

Definition is_digit (c : ascii) : bool :=
  let n := nat_of_ascii c in ((48 <=? n) && (n <=? 57))%nat.

Definition digit_value (c : ascii) : Z := Z.of_nat (nat_of_ascii c) - 48.

Fixpoint trim_start (s : string) : string :=
  match s with
  | String c r => if is_white_space c then trim_start r else s
  | EmptyString => s
  end.

Fixpoint digits_value (acc : Z) (s : string) : Z :=
  match s with
  | String c r =>
      if is_digit c then digits_value (10 * acc + digit_value c) r else acc
  | EmptyString => acc
  end.

Definition starts_with_digit (s : string) : bool :=
  match s with
  | String c _ => is_digit c
  | EmptyString => false
  end.

Definition parseInt (s : string) : option Z :=
  let s1 := trim_start s in
  let '(sign, s2) :=
    match s1 with
    | String "-" r => (-1, r)
    | String "+" r => (1, r)
    | _ => (1, s1)
    end in
  if starts_with_digit s2 then Some (sign * digits_value 0 s2) else None.

(** [v || d] on a number: NaN and zero are falsy. *)
Definition or_default (v : option Z) (d : Z) : Z :=
  match v with
  | Some n => if n =? 0 then d else n
  | None => d
  end.

(** [Math.floor] is the identity on an integer; [Math.floor (a / b)] on
    integers with [b > 0] is [Z.div]; [a % b] takes the sign of [a]
    ([Z.rem]). *)
Definition Math_floor (x : Z) : Z := x.
Definition Math_max (a b : Z) : Z := Z.max a b.
Definition Math_min (a b : Z) : Z := Z.min a b.

End JS.

(** ** [fmt]: seconds to MM:SS *)

Definition fmt (seconds : Z) : string :=
  let s := JS.Math_max 0 (JS.Math_floor seconds) in
  let m := JS.padStart (JS.toString (s / 60)) 2 "0" in
  let ss := JS.padStart (JS.toString (Z.rem s 60)) 2 "0" in
  m ++ ":" ++ ss.

(** The format as the specification words it: the minutes and the seconds
    of the clamped count, each zero-padded to two digits. *)
Definition two_digits (n : Z) : string :=
  if n <? 10 then "0" ++ JS.toString n else JS.toString n.

Definition fmt_spec (s : Z) : string :=
  two_digits (Z.max 0 s / 60) ++ ":" ++ two_digits (Z.max 0 s mod 60).

(** ** The browser's table of intervals

    [setInterval] returns a handle that was never returned before and
    registers it; [clearInterval] unregisters a handle and ignores [null]
    and the handles that are not registered.  The only callback the script
    registers is [tick], so a registered handle stands for one periodic
    invocation of [tick]. *)

Module Timers.

Record table : Type := mkTable {
  next_handle : nat;
  active : list nat
}.

Definition setInterval (tb : table) : nat * table :=
  (next_handle tb,
   {| next_handle := S (next_handle tb);
      active := active tb ++ [next_handle tb] |}).

Definition clearInterval (h : option nat) (tb : table) : table :=
  match h with
  | None => tb
  | Some i => {| next_handle := next_handle tb;
                 active := remove Nat.eq_dec i (active tb) |}
  end.

Definition is_active (h : nat) (tb : table) : bool :=
  existsb (Nat.eqb h) (active tb).

End Timers.

(** ** [practiceController] *)

Module Practice.

(** The closure variables ([prefersReduced] is a constant of the closure). *)
Record Vars : Type := mkVars {
  prefersReduced : bool;
  total : Z;
  tempo : Z;
  phaseIdx : Z;
  phaseTimeLeft : Z;
  timeLeft : Z;
  running : bool;
  interval : option nat
}.

(** The properties of the page elements that the controller reads or
    writes: the two [select] values, [cue.textContent],
    [circle.style.transition], [circle.style.transform],
    [timeLeftEl.textContent] and the [disabled] flag of the buttons. *)
Record Dom : Type := mkDom {
  tempoSel_value : string;
  durSel_value : string;
  cue_textContent : string;
  circle_transition : string;
  circle_transform : string;
  timeLeftEl_textContent : string;
  startBtn_disabled : bool;
  pauseBtn_disabled : bool;
  resetBtn_disabled : bool
}.

Record State : Type := mkState {
  vars : Vars;
  dom : Dom;
  timers : Timers.table
}.

(** *** Assignments *)

Section Assign.
Variable s : State.
Let v := vars s.
Let d := dom s.

Definition with_vars (v' : Vars) : State := mkState v' (dom s) (timers s).
Definition with_dom (d' : Dom) : State := mkState (vars s) d' (timers s).
Definition with_timers (tb : Timers.table) : State :=
  mkState (vars s) (dom s) tb.

Definition set_total (x : Z) : State :=
  with_vars (mkVars (prefersReduced v) x (tempo v) (phaseIdx v)
               (phaseTimeLeft v) (timeLeft v) (running v) (interval v)).
Definition set_tempo (x : Z) : State :=
  with_vars (mkVars (prefersReduced v) (total v) x (phaseIdx v)
               (phaseTimeLeft v) (timeLeft v) (running v) (interval v)).
Definition set_phaseIdx (x : Z) : State :=
  with_vars (mkVars (prefersReduced v) (total v) (tempo v) x
               (phaseTimeLeft v) (timeLeft v) (running v) (interval v)).
Definition set_phaseTimeLeft (x : Z) : State :=
  with_vars (mkVars (prefersReduced v) (total v) (tempo v) (phaseIdx v)
               x (timeLeft v) (running v) (interval v)).
Definition set_timeLeft (x : Z) : State :=
  with_vars (mkVars (prefersReduced v) (total v) (tempo v) (phaseIdx v)
               (phaseTimeLeft v) x (running v) (interval v)).
Definition set_running (b : bool) : State :=
  with_vars (mkVars (prefersReduced v) (total v) (tempo v) (phaseIdx v)
               (phaseTimeLeft v) (timeLeft v) b (interval v)).
Definition set_interval (h : option nat) : State :=
  with_vars (mkVars (prefersReduced v) (total v) (tempo v) (phaseIdx v)
               (phaseTimeLeft v) (timeLeft v) (running v) h).

Definition set_tempoSel_value (x : string) : State :=
  with_dom (mkDom x (durSel_value d) (cue_textContent d)
              (circle_transition d) (circle_transform d)
              (timeLeftEl_textContent d) (startBtn_disabled d)
              (pauseBtn_disabled d) (resetBtn_disabled d)).
Definition set_durSel_value (x : string) : State :=
  with_dom (mkDom (tempoSel_value d) x (cue_textContent d)
              (circle_transition d) (circle_transform d)
              (timeLeftEl_textContent d) (startBtn_disabled d)
              (pauseBtn_disabled d) (resetBtn_disabled d)).
Definition set_cue_textContent (x : string) : State :=
  with_dom (mkDom (tempoSel_value d) (durSel_value d) x
              (circle_transition d) (circle_transform d)
              (timeLeftEl_textContent d) (startBtn_disabled d)
              (pauseBtn_disabled d) (resetBtn_disabled d)).
Definition set_circle_transition (x : string) : State :=
  with_dom (mkDom (tempoSel_value d) (durSel_value d) (cue_textContent d)
              x (circle_transform d)
              (timeLeftEl_textContent d) (startBtn_disabled d)
              (pauseBtn_disabled d) (resetBtn_disabled d)).
Definition set_circle_transform (x : string) : State :=
  with_dom (mkDom (tempoSel_value d) (durSel_value d) (cue_textContent d)
              (circle_transition d) x
              (timeLeftEl_textContent d) (startBtn_disabled d)
              (pauseBtn_disabled d) (resetBtn_disabled d)).
Definition set_timeLeftEl_textContent (x : string) : State :=
  with_dom (mkDom (tempoSel_value d) (durSel_value d) (cue_textContent d)
              (circle_transition d) (circle_transform d)
              x (startBtn_disabled d)
              (pauseBtn_disabled d) (resetBtn_disabled d)).
Definition set_startBtn_disabled (b : bool) : State :=
  with_dom (mkDom (tempoSel_value d) (durSel_value d) (cue_textContent d)
              (circle_transition d) (circle_transform d)
              (timeLeftEl_textContent d) b
              (pauseBtn_disabled d) (resetBtn_disabled d)).
Definition set_pauseBtn_disabled (b : bool) : State :=
  with_dom (mkDom (tempoSel_value d) (durSel_value d) (cue_textContent d)
              (circle_transition d) (circle_transform d)
              (timeLeftEl_textContent d) (startBtn_disabled d)
              b (resetBtn_disabled d)).
Definition set_resetBtn_disabled (b : bool) : State :=
  with_dom (mkDom (tempoSel_value d) (durSel_value d) (cue_textContent d)
              (circle_transition d) (circle_transform d)
              (timeLeftEl_textContent d) (startBtn_disabled d)
              (pauseBtn_disabled d) b).
End Assign.

(** *** The phases

    [scale] holds the text that the template literal [`${ph.scale}`]
    produces: [1.28] prints as it is written and [1.00] prints as [1]. *)
Record Phase : Type := mkPhase {
  key : string;
  label : string;
  scale : string
}.

Definition phases : list Phase :=
  [ mkPhase "inhale" "Inhale" "1.28";
    mkPhase "hold1" "Hold" "1.28";
    mkPhase "exhale" "Exhale" "1";
    mkPhase "hold2" "Hold" "1" ].

(** [phases[p]]: [None] is [undefined]. *)
Definition phases_at (p : Z) : option Phase :=
  if p <? 0 then None else nth_error phases (Z.to_nat p).

(** *** The functions of the closure *)

Definition applyTransitionDuration (sec : Z) (s : State) : State :=
  if prefersReduced (vars s) then set_circle_transition s "none"
  else set_circle_transition s
         ("transform " ++ JS.toString sec ++ "s ease-in-out").

Definition setPhase (p : Z) (s : State) : option State :=
  match phases_at p with
  | None => None
  | Some ph =>
      let s1 := set_cue_textContent s (label ph) in
      let s2 := applyTransitionDuration (tempo (vars s1)) s1 in
      Some (set_circle_transform s2 ("scale(" ++ scale ph ++ ")"))
  end.

Definition updateTime (s : State) : State :=
  set_timeLeftEl_textContent s (fmt (timeLeft (vars s))).

Definition stop (s : State) : State :=
  let s1 := set_running s false in
  let s2 := set_startBtn_disabled s1 false in
  let s3 := set_pauseBtn_disabled s2 true in
  with_timers s3 (Timers.clearInterval (interval (vars s3)) (timers s3)).

Definition tick (s : State) : option State :=
  if negb (running (vars s)) then Some s
  else
    let phase_change :=
      if phaseTimeLeft (vars s) <=? 0 then
        let s1 := set_phaseIdx s
                    (Z.rem (phaseIdx (vars s) + 1)
                       (Z.of_nat (List.length phases))) in
        let s2 := set_phaseTimeLeft s1 (tempo (vars s1)) in
        setPhase (phaseIdx (vars s2)) s2
      else Some s in
    match phase_change with
    | None => None
    | Some s3 =>
        if timeLeft (vars s3) <=? 0 then
          let s4 := stop s3 in
          let s5 := set_cue_textContent s4 "Complete" in
          Some (set_circle_transform s5 "scale(1)")
        else
          let s4 := set_phaseTimeLeft s3 (phaseTimeLeft (vars s3) - 1) in
          let s5 := set_timeLeft s4 (timeLeft (vars s4) - 1) in
          Some (updateTime s5)
    end.

Definition start (s : State) : option State :=
  if running (vars s) then Some s
  else
    let s1 := set_running s true in
    let s2 := set_startBtn_disabled s1 true in
    let s3 := set_pauseBtn_disabled s2 false in
    let s4 := set_resetBtn_disabled s3 false in
    match setPhase (phaseIdx (vars s4)) s4 with
    | None => None
    | Some s5 =>
        let s6 := updateTime s5 in
        let '(h, tb) := Timers.setInterval (timers s6) in
        Some (set_interval (with_timers s6 tb) (Some h))
    end.

Definition pause (s : State) : State :=
  if negb (running (vars s)) then s
  else
    let s1 := set_running s false in
    let s2 := set_startBtn_disabled s1 false in
    let s3 := set_pauseBtn_disabled s2 true in
    with_timers s3 (Timers.clearInterval (interval (vars s3)) (timers s3)).

Definition reset (s : State) : State :=
  let s1 := stop s in
  let s2 := set_tempo s1
              (JS.or_default (JS.parseInt (tempoSel_value (dom s1))) 4) in
  let s3 := set_total s2
              (JS.or_default (JS.parseInt (durSel_value (dom s2))) 60) in
  let s4 := set_timeLeft s3 (total (vars s3)) in
  let s5 := set_phaseIdx s4 0 in
  let s6 := set_phaseTimeLeft s5 (tempo (vars s5)) in
  let s7 := set_circle_transform s6 "scale(1)" in
  let s8 := set_cue_textContent s7 "Ready" in
  updateTime s8.

(** The [change] listeners of the two [select] elements. *)
Definition tempoSel_change (s : State) : State :=
  let s1 := set_tempo s
              (JS.or_default (JS.parseInt (tempoSel_value (dom s))) 4) in
  set_phaseTimeLeft s1 (tempo (vars s1)).

Definition durSel_change (s : State) : State :=
  let s1 := set_total s
              (JS.or_default (JS.parseInt (durSel_value (dom s))) 60) in
  let s2 := set_timeLeft s1
              (JS.Math_min (timeLeft (vars s1)) (total (vars s1))) in
  updateTime s2.

(** The body of [practiceController] up to its [return]: the [let]
    declarations, then [reset ()].  [page] is the page as the HTML gives
    it, [reduced] the result of the media query and [first_handle] the
    handle that the first [setInterval] of the window will return (no
    interval is registered when the page loads). *)
Definition declarations (page : Dom) (reduced : bool) (first_handle : nat)
  : State :=
  let total0 := 60 in
  let tempo0 := 4 in
  mkState (mkVars reduced total0 tempo0 0 tempo0 total0 false None) page
    (Timers.mkTable first_handle []).

Definition practiceController (page : Dom) (reduced : bool)
  (first_handle : nat) : State :=
  reset (declarations page reduced first_handle).

(** *** The events of the page

    A click runs the listener of its button, a [change] runs the listener
    of its [select] after the browser has stored the chosen value, and a
    registered interval runs [tick]. *)
Inductive event : Type :=
| click_start
| click_pause
| click_reset
| change_tempo (value : string)
| change_duration (value : string)
| interval_fires (h : nat).

Definition handle (e : event) (s : State) : option State :=
  match e with
  | click_start => start s
  | click_pause => Some (pause s)
  | click_reset => Some (reset s)
  | change_tempo v => Some (tempoSel_change (set_tempoSel_value s v))
  | change_duration v => Some (durSel_change (set_durSel_value s v))
  | interval_fires h =>
      if Timers.is_active h (timers s) then tick s else Some s
  end.

Inductive reachable : State -> Prop :=
| reach_load : forall page reduced first_handle,
    reachable (practiceController page reduced first_handle)
| reach_event : forall s e s',
    reachable s -> handle e s = Some s' -> reachable s'.

(** [n] invocations of [tick], one after the other. *)
Fixpoint ticks (n : nat) (s : State) : option State :=
  match n with
  | O => Some s
  | S k =>
      match tick s with
      | Some s' => ticks k s'
      | None => None
      end
  end.

(** The index of the phase that follows [p] at a phase change. *)
Definition next_phase (p : Z) : Z :=
  Z.rem (p + 1) (Z.of_nat (List.length phases)).

(** What holds in every reachable state: the phase index is an index of
    [phases], the registered handles are older than the next one, and the
    table holds the handle of [interval] while running and nothing
    otherwise. *)
Definition phase_in_range (s : State) : Prop :=
  0 <= phaseIdx (vars s) < 4.

Definition timers_coherent (s : State) : Prop :=
  if running (vars s)
  then exists h, interval (vars s) = Some h
                 /\ Timers.active (timers s) = [h]
                 /\ (h < Timers.next_handle (timers s))%nat
  else Timers.active (timers s) = [].

Definition consistent (s : State) : Prop :=
  phase_in_range s /\ timers_coherent s.

(** Sample pages: the values of the two [select] elements, everything
    else as an empty page leaves it. *)
Definition sample_page (tempo_value duration_value : string) : Dom :=
  mkDom tempo_value duration_value EmptyString EmptyString EmptyString
    EmptyString false false false.

(** *** Sample sessions *)

(** The timer of a page whose controls read 4 and 60, started. *)
Definition started : option State :=
  start (practiceController (sample_page "4" "60") false 1).

Definition started_state : State :=
  match started with
  | Some s => s
  | None => practiceController (sample_page "4" "60") false 1
  end.

(** The timer of a page whose controls read 4 and 60, started and two
    ticks into its first phase. *)
Definition two_ticks_in : option State :=
  match start (practiceController (sample_page "4" "60") false 1) with
  | Some s => ticks 2 s
  | None => None
  end.

Definition two_ticks_state : State :=
  match two_ticks_in with
  | Some s => s
  | None => practiceController (sample_page "4" "60") false 1
  end.

(** The same timer once the tempo control reads 6, before its [change]
    listener runs. *)
Definition tempo_6_chosen : State := set_tempoSel_value two_ticks_state "6".

End Practice.

(** ** What the page shows, and the bounds of the counters *)

Module PracticeView.
Import Practice.

(** The label and the circle are those of the current phase. *)
Definition shown_phase (s : State) : Prop :=
  exists ph,
    phases_at (phaseIdx (vars s)) = Some ph
    /\ cue_textContent (dom s) = label ph
    /\ circle_transform (dom s) = "scale(" ++ scale ph ++ ")"
    /\ (prefersReduced (vars s) = true -> circle_transition (dom s) = "none").

Definition view_consistent (s : State) : Prop :=
  startBtn_disabled (dom s) = running (vars s)
  /\ pauseBtn_disabled (dom s) = negb (running (vars s))
  /\ timeLeftEl_textContent (dom s) = fmt (timeLeft (vars s))
  /\ (running (vars s) = true -> shown_phase s).

Definition within_bounds (s : State) : Prop :=
  timeLeft (vars s) <= total (vars s)
  /\ Z.min 0 (tempo (vars s) - 1) <= phaseTimeLeft (vars s)
     <= tempo (vars s).

Definition kept (s : State) : Prop := view_consistent s /\ within_bounds s.

(** Sample states: a paused timer, a timer whose tempo control reads -3, a
    timer started with reduced motion, and a session of 8 seconds run to
    its end. *)
Definition paused_state : State := pause two_ticks_state.

Definition negative_tempo_state : State :=
  match start (practiceController (sample_page "-3" "60") false 1) with
  | Some s => s
  | None => practiceController (sample_page "-3" "60") false 1
  end.

Definition reduced_started_state : State :=
  match start (practiceController (sample_page "4" "60") true 1) with
  | Some s => s
  | None => practiceController (sample_page "4" "60") true 1
  end.

Definition complete_state : State :=
  match start (practiceController (sample_page "4" "8") false 1) with
  | Some s0 => match ticks 9 s0 with
               | Some s => s
               | None => s0
               end
  | None => practiceController (sample_page "4" "8") false 1
  end.

End PracticeView.

(** ** [modalController], the focus trap and the listeners that pause
    the video

    The nodes of the document are numbered.  The document itself is not
    part of the script: [querySelector] is what [document.querySelector]
    answers in the current state (a thrown [SyntaxError], [null] or an
    element) and [focusables m] is what [m.querySelectorAll] answers for
    the selector of the focusable elements, in document order; the script
    uses that same selector with [m.querySelector], which answers the first
    of them.  [videoModal] is the element with the id [videoModal], if the
    page has one.  [document.activeElement] is read when a function runs
    and is an argument of the model; the calls of [focus ()] and of
    [videoEl.pause ()] are recorded. *)

Module Modal.

Definition elem : Type := nat.

Inductive query_result : Type :=
| invalid_selector
| no_match
| found (e : elem).

Record State : Type := mkModal {
  activeModal : option elem;
  lastFocused : option elem;
  hidden : elem -> bool;
  body_overflow : string;
  focus_calls : list elem;
  pause_calls : nat
}.

Definition set_hidden (m : elem) (b : bool) (s : State) : State :=
  mkModal (activeModal s) (lastFocused s)
    (fun e => if Nat.eqb e m then b else hidden s e)
    (body_overflow s) (focus_calls s) (pause_calls s).

Definition set_activeModal (a : option elem) (s : State) : State :=
  mkModal a (lastFocused s) (hidden s) (body_overflow s) (focus_calls s)
    (pause_calls s).

Definition set_lastFocused (a : option elem) (s : State) : State :=
  mkModal (activeModal s) a (hidden s) (body_overflow s) (focus_calls s)
    (pause_calls s).

Definition set_body_overflow (v : string) (s : State) : State :=
  mkModal (activeModal s) (lastFocused s) (hidden s) v (focus_calls s)
    (pause_calls s).

Definition focus (e : elem) (s : State) : State :=
  mkModal (activeModal s) (lastFocused s) (hidden s) (body_overflow s)
    (e :: focus_calls s) (pause_calls s).

Definition videoEl_pause (s : State) : State :=
  mkModal (activeModal s) (lastFocused s) (hidden s) (body_overflow s)
    (focus_calls s) (S (pause_calls s)).

Definition closeSelectors : list string :=
  ["[data-close-modal]"; "[data-close]"].

Definition same_node (a : option elem) (e : elem) : bool :=
  match a with
  | Some x => Nat.eqb x e
  | None => false
  end.

Section Document.
Variable querySelector : State -> string -> query_result.
Variable focusables : elem -> list elem.
Variable videoModal : option elem.

(** [None] is the [SyntaxError] of a selector that does not parse. *)
Definition openModal (selector : string) (activeElement : option elem)
  (s : State) : option State :=
  match querySelector s selector with
  | invalid_selector => None
  | no_match => Some s
  | found modal =>
      let s1 := set_lastFocused activeElement s in
      let s2 := set_hidden modal false s1 in
      let s3 := set_activeModal (Some modal) s2 in
      let s4 := set_body_overflow "hidden" s3 in
      match hd_error (focusables modal) with
      | Some firstFocusable => Some (focus firstFocusable s4)
      | None => Some s4
      end
  end.

Definition closeModal (s : State) : State :=
  match activeModal s with
  | None => s
  | Some m =>
      let s1 := set_hidden m true s in
      let s2 := set_body_overflow EmptyString s1 in
      let s3 := match lastFocused s2 with
                | Some e => focus e s2
                | None => s2
                end in
      set_activeModal None s3
  end.

(** The two [click] listeners of the document, one for each of
    [closeSelectors], in the order they were added; [target_matches] is
    [e.target.matches]. *)
Definition close_click (target_matches : string -> bool) (s : State)
  : State :=
  fold_left (fun st sel => if target_matches sel then closeModal st else st)
    closeSelectors s.

(** The [keydown] listener of [modalController]; the boolean tells whether
    [preventDefault ()] was called. *)
Definition escape_keydown (key : string) (s : State) : State * bool :=
  match activeModal s with
  | Some _ =>
      if String.eqb key "Escape" then (closeModal s, true) else (s, false)
  | None => (s, false)
  end.

(** The [keydown] listener of [videoPracticeController]; without a video
    modal the function returns before it adds the listener. *)
Definition video_escape_keydown (key : string) (s : State) : State :=
  match videoModal with
  | None => s
  | Some vm =>
      if String.eqb key "Escape" && negb (hidden s vm)
      then videoEl_pause s else s
  end.

(** The [click] listener that [videoPracticeController] adds to the
    [[data-close-modal]] elements of the video modal. *)
Definition video_close_click (s : State) : State :=
  match videoModal with
  | None => s
  | Some _ => videoEl_pause s
  end.

(** The [keydown] listener that traps the focus in the active modal; the
    boolean tells whether [preventDefault ()] was called. *)
Definition focus_trap (key : string) (shiftKey : bool)
  (activeElement : option elem) (s : State) : State * bool :=
  match activeModal s with
  | None => (s, false)
  | Some m =>
      if negb (String.eqb key "Tab") then (s, false)
      else
        match focusables m with
        | [] => (s, false)
        | first :: rest =>
            let last := List.last rest first in
            if shiftKey && same_node activeElement first
            then (focus last s, true)
            else if negb shiftKey && same_node activeElement last
            then (focus first s, true)
            else (s, false)
        end
  end.

(** A [keydown] on the page runs the three listeners of the document in
    the order the script added them: [modalController] is called first,
    [videoPracticeController] next, and the focus trap is added last. *)
Definition keydown_event (key : string) (shiftKey : bool)
  (activeElement : option elem) (s : State) : State :=
  let s1 := fst (escape_keydown key s) in
  let s2 := video_escape_keydown key s1 in
  fst (focus_trap key shiftKey activeElement s2).

(** A [click] on the page: the listener of a close element of the video
    modal, when the click goes through one ([through_video_close]), runs
    before the listeners of the document, which the click reaches last. *)
Definition click_event (through_video_close : bool)
  (target_matches : string -> bool) (s : State) : State :=
  let s1 := if through_video_close then video_close_click s else s in
  close_click target_matches s1.

(** The calls the page can make. *)
Inductive event : Type :=
| open (selector : string) (activeElement : option elem)
| close
| click (through_video_close : bool) (target_matches : string -> bool)
| keydown (key : string) (shiftKey : bool) (activeElement : option elem).

Definition handle (e : event) (s : State) : option State :=
  match e with
  | open selector a => openModal selector a s
  | close => Some (closeModal s)
  | click v target_matches => Some (click_event v target_matches s)
  | keydown key shiftKey a => Some (keydown_event key shiftKey a s)
  end.

(** [modalController ()] starts with no active modal and no element
    remembered. *)
Definition loaded (s : State) : Prop :=
  activeModal s = None /\ lastFocused s = None.

Inductive reachable : State -> Prop :=
| reach_loaded : forall s, loaded s -> reachable s
| reach_handle : forall s e s',
    reachable s -> handle e s = Some s' -> reachable s'.

End Document.

(** While a modal is active it is shown and the body does not scroll. *)
Definition shown_and_locked (s : State) : Prop :=
  forall m, activeModal s = Some m ->
            hidden s m = false /\ body_overflow s = "hidden".

(** A sample document: the node 10 is the modal ["#m"] with the focusable
    nodes 11, 12 and 13, the node 20 is the video modal ["#videoModal"]
    with the focusable node 21, and the selector ["["] does not parse. *)
Definition sample_querySelector (s : State) (selector : string)
  : query_result :=
  if String.eqb selector "#m" then found 10%nat
  else if String.eqb selector "#videoModal" then found 20%nat
  else if String.eqb selector "[" then invalid_selector
  else no_match.

Definition sample_focusables (m : elem) : list elem :=
  if Nat.eqb m 10 then [11; 12; 13]%nat
  else if Nat.eqb m 20 then [21]%nat
  else [].

Definition sample_loaded : State :=
  mkModal None None (fun _ => true) EmptyString [] 0.

(** The sample page after ["#m"] was opened from the node 5, and after the
    video modal was opened from the node 6. *)
Definition sample_opened : State :=
  match openModal sample_querySelector sample_focusables "#m"
          (Some 5%nat) sample_loaded with
  | Some s => s
  | None => sample_loaded
  end.

Definition sample_video_opened : State :=
  match openModal sample_querySelector sample_focusables "#videoModal"
          (Some 6%nat) sample_loaded with
  | Some s => s
  | None => sample_loaded
  end.

End Modal.

(** * Properties *)

(** ** The primitives *)

Section Decimal.
Import JS.

Lemma digit_cases (d : Z) :
  0 <= d < 10 ->
  d = 0 \/ d = 1 \/ d = 2 \/ d = 3 \/ d = 4 \/
  d = 5 \/ d = 6 \/ d = 7 \/ d = 8 \/ d = 9.
Proof. lia. Qed.

Lemma digit_char_is_digit (d : Z) :
  0 <= d < 10 -> is_digit (digit_char d) = true.
Proof.
  intros H; destruct (digit_cases d H) as [E|[E|[E|[E|[E|[E|[E|[E|[E|E]]]]]]]]];
    subst d; reflexivity.
Qed.

Lemma digit_value_char (d : Z) :
  0 <= d < 10 -> digit_value (digit_char d) = d.
Proof.
  intros H; destruct (digit_cases d H) as [E|[E|[E|[E|[E|[E|[E|[E|[E|E]]]]]]]]];
    subst d; reflexivity.
Qed.

Lemma digit_char_not_space (d : Z) :
  0 <= d < 10 -> is_white_space (digit_char d) = false.
Proof.
  intros H; destruct (digit_cases d H) as [E|[E|[E|[E|[E|[E|[E|[E|[E|E]]]]]]]]];
    subst d; reflexivity.
Qed.

Lemma digits_fuel_length (fuel : nat) :
  forall n acc,
    (String.length acc + Nat.min 1 fuel
     <= String.length (digits_fuel fuel n acc))%nat.
Proof.
  induction fuel as [|fuel IH]; intros n acc; simpl.
  - lia.
  - destruct (n <? 10).
    + simpl; lia.
    + specialize (IH (n / 10) (String (digit_char (n mod 10)) acc)).
      simpl in IH. lia.
Qed.

Lemma digits_small (n : Z) :
  0 <= n < 10 -> digits n = String (digit_char n) EmptyString.
Proof.
  intros H. unfold digits. simpl.
  destruct (Z.ltb_spec n 10); [|lia].
  now rewrite Z.mod_small by lia.
Qed.

Lemma digits_long (n : Z) :
  10 <= n -> (2 <= String.length (digits n))%nat.
Proof.
  intros H. unfold digits.
  assert (L : 3 <= Z.log2 n).
  { change 3 with (Z.log2 8). apply Z.log2_le_mono. lia. }
  destruct (Z.to_nat (Z.log2 n)) as [|k] eqn:E; [lia|].
  cbn [digits_fuel].
  destruct (Z.ltb_spec n 10); [lia|].
  pose proof (digits_fuel_length (S k) (n / 10)
                (String (digit_char (n mod 10)) EmptyString)) as Hl.
  simpl String.length in Hl. simpl Nat.min in Hl. lia.
Qed.

(** On a non-negative integer, [padStart (2, "0")] puts one zero before a
    single digit and leaves a longer numeral alone. *)
Lemma padStart_two (n : Z) :
  0 <= n ->
  padStart (toString n) 2 "0"
  = if n <? 10 then String "0" (toString n) else toString n.
Proof.
  intros H. unfold toString.
  destruct (Z.ltb_spec n 0); [lia|].
  destruct (Z.ltb_spec n 10).
  - rewrite digits_small by lia. reflexivity.
  - unfold padStart.
    pose proof (digits_long n ltac:(lia)) as Hl.
    destruct (Nat.leb_spec 2 (String.length (digits n))); [reflexivity|lia].
Qed.

Lemma digits_fuel_value (fuel : nat) :
  forall n acc,
    0 <= n < 10 ^ Z.of_nat fuel ->
    digits_value 0 (digits_fuel fuel n acc) = digits_value n acc.
Proof.
  induction fuel as [|fuel IH]; intros n acc H.
  - simpl in H. assert (n = 0) by lia. now subst.
  - cbn [digits_fuel].
    assert (D : 0 <= n mod 10 < 10) by (apply Z.mod_pos_bound; lia).
    destruct (Z.ltb_spec n 10).
    + cbn [digits_value]. rewrite digit_char_is_digit by exact D.
      rewrite digit_value_char by exact D.
      rewrite Z.mod_small by lia. f_equal.
    + rewrite IH.
      * cbn [digits_value]. rewrite digit_char_is_digit by exact D.
        rewrite digit_value_char by exact D.
        f_equal. pose proof (Z.div_mod n 10). lia.
      * rewrite Nat2Z.inj_succ, Z.pow_succ_r in H by lia.
        split; [apply Z.div_pos; lia|].
        apply Z.div_lt_upper_bound; lia.
Qed.

Lemma digits_fuel_head (fuel : nat) :
  forall n acc,
    0 <= n ->
    (fuel <> O \/ starts_with_digit acc = true) ->
    exists c r, digits_fuel fuel n acc = String c r
                /\ is_digit c = true /\ is_white_space c = false
                /\ c <> "-"%char /\ c <> "+"%char.
Proof.
  assert (K : forall c, is_digit c = true ->
              is_white_space c = false /\ c <> "-"%char /\ c <> "+"%char).
  { intros c Hc. unfold is_digit, is_white_space in *.
    repeat split.
    - destruct (Nat.leb_spec 48 (nat_of_ascii c)); [|discriminate].
      repeat match goal with
             | |- context [(?a <=? ?b)%nat] => destruct (Nat.leb_spec a b)
             | |- context [(?a =? ?b)%nat] => destruct (Nat.eqb_spec a b)
             end; simpl; try reflexivity; try lia.
      destruct (Nat.leb_spec (nat_of_ascii c) 57); [lia|discriminate].
    - intros ->. discriminate.
    - intros ->. discriminate. }
  induction fuel as [|fuel IH]; intros n acc Hn H.
  - destruct H as [H|H]; [congruence|].
    destruct acc as [|c r]; [discriminate|].
    exists c, r. simpl in H. destruct (K c H) as (? & ? & ?). auto.
  - cbn [digits_fuel].
    assert (D : 0 <= n mod 10 < 10) by (apply Z.mod_pos_bound; lia).
    pose proof (digit_char_is_digit _ D) as Hd.
    destruct (n <? 10).
    + eexists _, _. split; [reflexivity|].
      destruct (K _ Hd) as (? & ? & ?). auto.
    + apply IH; [apply Z.div_pos; lia|]. right. exact Hd.
Qed.

Lemma digits_parse (n : Z) :
  0 <= n ->
  exists c r, digits n = String c r
              /\ is_digit c = true /\ is_white_space c = false
              /\ c <> "-"%char /\ c <> "+"%char
              /\ digits_value 0 (digits n) = n.
Proof.
  intros H. unfold digits.
  destruct (digits_fuel_head (S (Z.to_nat (Z.log2 n))) n EmptyString H)
    as (c & r & E & Hd & Hw & Hm & Hp); [left; discriminate|].
  exists c, r. repeat split; auto.
  rewrite digits_fuel_value; [reflexivity|].
  split; [exact H|].
  destruct (Z.eq_dec n 0) as [->|Hz]; [reflexivity|].
  pose proof (Z.log2_spec n ltac:(lia)) as [_ Hu].
  rewrite Nat2Z.inj_succ, Z2Nat.id by apply Z.log2_nonneg.
  eapply Z.lt_le_trans; [exact Hu|].
  apply Z.pow_le_mono_l. lia.
Qed.

(** [parseInt] reads back the numeral that [toString] writes. *)
Lemma parseInt_toString (n : Z) : parseInt (toString n) = Some n.
Proof.
  unfold toString.
  destruct (Z.ltb_spec n 0) as [Hneg|Hpos].
  - destruct (digits_parse (- n) ltac:(lia))
      as (c & r & E & Hd & Hw & Hm & Hp & V).
    unfold parseInt. cbn [trim_start]. change (is_white_space "-") with false.
    cbv iota. rewrite E in *. cbn [starts_with_digit]. rewrite Hd.
    rewrite V. f_equal. lia.
  - destruct (digits_parse n Hpos) as (c & r & E & Hd & Hw & Hm & Hp & V).
    unfold parseInt. rewrite E in *. cbn [trim_start]. rewrite Hw.
    destruct c as [b0 b1 b2 b3 b4 b5 b6 b7].
    destruct b0, b1, b2, b3, b4, b5, b6, b7;
      try congruence; cbn [starts_with_digit]; rewrite Hd, V;
      f_equal; lia.
Qed.

End Decimal.

(** ** [fmt] *)

(** C9. [fmt] maps every count of seconds [s] to the minutes
    [floor (max (0, s) / 60)] zero-padded to two digits, a colon, and the
    seconds [max (0, s) mod 60] zero-padded to two digits; in particular
    [fmt 65] is "01:05", [fmt 0] is "00:00" and [fmt (-5)] is "00:00". *)
Theorem fmt_is_minutes_and_seconds :
  (forall s : Z, fmt s = fmt_spec s)
  /\ fmt 65 = "01:05" /\ fmt 0 = "00:00" /\ fmt (-5) = "00:00".
Proof.
  split; [|repeat split; reflexivity].
  intros s. unfold fmt, fmt_spec, two_digits, JS.Math_max, JS.Math_floor.
  assert (H : 0 <= Z.max 0 s) by lia.
  rewrite Z.rem_mod_nonneg by lia.
  rewrite !padStart_two.
  - reflexivity.
  - apply Z.mod_pos_bound; lia.
  - apply Z.div_pos; lia.
Qed.

(** ** The controller *)

Section Controller.
Import Practice.

(** Runs the functions of the closure on a state given by its fields. *)
Ltac run_controller :=
  cbv [practiceController declarations reset pause start tick
       tempoSel_change durSel_change stop updateTime setPhase
       applyTransitionDuration
       set_total set_tempo set_phaseIdx set_phaseTimeLeft
       set_timeLeft set_running set_interval set_tempoSel_value
       set_durSel_value set_cue_textContent set_circle_transition
       set_circle_transform set_timeLeftEl_textContent
       set_startBtn_disabled set_pauseBtn_disabled set_resetBtn_disabled
       with_vars with_dom with_timers
       vars dom timers prefersReduced total tempo phaseIdx phaseTimeLeft
       timeLeft running interval tempoSel_value durSel_value
       cue_textContent circle_transition circle_transform
       timeLeftEl_textContent startBtn_disabled pauseBtn_disabled
       resetBtn_disabled key label scale negb
       Timers.setInterval Timers.next_handle Timers.active] in *.

Ltac open_state s :=
  let v := fresh "v" in
  let d := fresh "d" in
  let tb := fresh "tb" in
  destruct s as [v d tb]; destruct v, d, tb; cbn [vars dom timers
    prefersReduced total tempo phaseIdx phaseTimeLeft timeLeft running
    interval Timers.active Timers.next_handle] in *.

Ltac proj_simpl :=
  cbn [vars dom timers prefersReduced total tempo phaseIdx phaseTimeLeft
       timeLeft running interval tempoSel_value durSel_value
       cue_textContent circle_transition circle_transform
       timeLeftEl_textContent startBtn_disabled pauseBtn_disabled
       resetBtn_disabled Timers.active Timers.next_handle key label scale
       negb fst snd] in *.

Lemma phase_cases (p : Z) :
  0 <= p < 4 -> p = 0 \/ p = 1 \/ p = 2 \/ p = 3.
Proof. lia. Qed.

Lemma next_phase_in_range (p : Z) : 0 <= p < 4 -> 0 <= next_phase p < 4.
Proof.
  intros H. destruct (phase_cases p H) as [E|[E|[E|E]]]; subst p;
    vm_compute; intuition congruence.
Qed.

Lemma next_phase_mod (p : Z) : 0 <= p -> next_phase p = (p + 1) mod 4.
Proof. intros H. unfold next_phase. apply Z.rem_mod_nonneg; simpl; lia. Qed.

Lemma phases_at_in_range (p : Z) :
  0 <= p < 4 -> exists ph, phases_at p = Some ph.
Proof.
  intros H. destruct (phase_cases p H) as [E|[E|[E|E]]]; subst p;
    eexists; reflexivity.
Qed.

(** What one [tick] does to a running timer. *)
Lemma tick_running (s : State) :
  running (vars s) = true ->
  phase_in_range s ->
  exists s',
    tick s = Some s'
    /\ prefersReduced (vars s') = prefersReduced (vars s)
    /\ tempo (vars s') = tempo (vars s)
    /\ total (vars s') = total (vars s)
    /\ interval (vars s') = interval (vars s)
    /\ tempoSel_value (dom s') = tempoSel_value (dom s)
    /\ durSel_value (dom s') = durSel_value (dom s)
    /\ phase_in_range s'
    /\ phaseIdx (vars s')
       = (if phaseTimeLeft (vars s) <=? 0
          then next_phase (phaseIdx (vars s)) else phaseIdx (vars s))
    /\ (if timeLeft (vars s) <=? 0
        then running (vars s') = false
             /\ timeLeft (vars s') = timeLeft (vars s)
             /\ phaseTimeLeft (vars s')
                = (if phaseTimeLeft (vars s) <=? 0
                   then tempo (vars s) else phaseTimeLeft (vars s))
             /\ timers s'
                = Timers.clearInterval (interval (vars s)) (timers s)
             /\ cue_textContent (dom s') = "Complete"
             /\ circle_transform (dom s') = "scale(1)"
        else running (vars s') = true
             /\ timeLeft (vars s') = timeLeft (vars s) - 1
             /\ phaseTimeLeft (vars s')
                = (if phaseTimeLeft (vars s) <=? 0
                   then tempo (vars s) else phaseTimeLeft (vars s)) - 1
             /\ timers s' = timers s
             /\ timeLeftEl_textContent (dom s')
                = fmt (timeLeft (vars s) - 1)).
Proof.
  intros Hrun Hp. unfold phase_in_range in *.
  open_state s. subst.
  pose proof (next_phase_in_range _ Hp) as Hn.
  destruct (phases_at_in_range _ Hn) as (ph & Hph).
  unfold next_phase in Hph, Hn |- *.
  run_controller.
  destruct (phaseTimeLeft0 <=? 0); proj_simpl;
    rewrite ?Hph; proj_simpl;
    destruct prefersReduced0; proj_simpl;
    destruct (timeLeft0 <=? 0); proj_simpl;
    eexists; (split; [reflexivity|]); proj_simpl.
    all: repeat split; auto.
    all: try lia.
Qed.

Lemma tick_not_running (s : State) :
  running (vars s) = false -> tick s = Some s.
Proof. intros H. unfold tick. now rewrite H. Qed.

(** *** The invariant of the reachable states *)

Lemma clear_own_interval (s : State) :
  timers_coherent s ->
  Timers.active (Timers.clearInterval (interval (vars s)) (timers s)) = [].
Proof.
  unfold timers_coherent. open_state s.
  destruct running0.
  - intros (h & -> & -> & _). simpl.
    destruct (Nat.eq_dec h h); [reflexivity|congruence].
  - intros ->. destruct interval0; reflexivity.
Qed.

Lemma consistent_load (page : Dom) (reduced : bool) (first_handle : nat) :
  consistent (practiceController page reduced first_handle).
Proof.
  unfold consistent, phase_in_range, timers_coherent.
  run_controller. simpl. split; [lia|reflexivity].
Qed.

Lemma consistent_start (s s' : State) :
  consistent s -> start s = Some s' -> consistent s'.
Proof.
  unfold consistent, phase_in_range, timers_coherent.
  open_state s. intros [Hp Ht] H. run_controller.
  destruct running0.
  - injection H as <-. run_controller. auto.
  - destruct (phases_at phaseIdx0); [|discriminate].
    destruct prefersReduced0; injection H as <-; run_controller;
      subst; (split; [exact Hp|]); eexists; repeat split; simpl; lia.
Qed.

Lemma consistent_pause (s : State) : consistent s -> consistent (pause s).
Proof.
  intros [Hp Ht]. pose proof (clear_own_interval s Ht) as Hc.
  unfold consistent, phase_in_range, timers_coherent in *.
  open_state s. run_controller.
  destruct running0; run_controller; auto.
Qed.

Lemma consistent_reset (s : State) : consistent s -> consistent (reset s).
Proof.
  intros [Hp Ht]. pose proof (clear_own_interval s Ht) as Hc.
  unfold consistent, phase_in_range, timers_coherent in *.
  open_state s. run_controller. split; [lia|exact Hc].
Qed.

Lemma consistent_tempoSel_change (s : State) (v : string) :
  consistent s -> consistent (tempoSel_change (set_tempoSel_value s v)).
Proof.
  unfold consistent, phase_in_range, timers_coherent.
  open_state s. run_controller. auto.
Qed.

Lemma consistent_durSel_change (s : State) (v : string) :
  consistent s -> consistent (durSel_change (set_durSel_value s v)).
Proof.
  unfold consistent, phase_in_range, timers_coherent.
  open_state s. run_controller. auto.
Qed.

Lemma consistent_tick (s s' : State) :
  consistent s -> tick s = Some s' -> consistent s'.
Proof.
  intros [Hp Ht] H.
  destruct (running (vars s)) eqn:Hrun.
  - destruct (tick_running s Hrun Hp)
      as (s1 & E & _ & _ & _ & Hi & _ & _ & Hp' & _ & Hcase).
    rewrite E in H. injection H as <-.
    split; [exact Hp'|].
    pose proof (clear_own_interval s Ht) as Hc.
    unfold timers_coherent in *. rewrite Hrun in Ht.
    destruct (timeLeft (vars s) <=? 0).
    + destruct Hcase as (-> & _ & _ & -> & _). exact Hc.
    + destruct Hcase as (-> & _ & _ & -> & _). rewrite Hi. exact Ht.
  - rewrite tick_not_running in H by exact Hrun.
    injection H as <-. split; assumption.
Qed.

Lemma consistent_handle (e : event) (s s' : State) :
  consistent s -> handle e s = Some s' -> consistent s'.
Proof.
  intros Hc H. destruct e; cbn [handle] in H.
  - eapply consistent_start; eassumption.
  - injection H as <-. now apply consistent_pause.
  - injection H as <-. now apply consistent_reset.
  - injection H as <-. now apply consistent_tempoSel_change.
  - injection H as <-. now apply consistent_durSel_change.
  - destruct (Timers.is_active h (timers s)).
    + eapply consistent_tick; eassumption.
    + injection H as <-. exact Hc.
Qed.

Lemma reachable_consistent (s : State) : reachable s -> consistent s.
Proof.
  induction 1 as [page reduced n | s e s' _ IH H].
  - apply consistent_load.
  - eapply consistent_handle; eassumption.
Qed.

(** No listener throws in a consistent state. *)
Lemma start_defined (s : State) :
  phase_in_range s -> exists s', start s = Some s'.
Proof.
  intros Hp. destruct (phases_at_in_range _ Hp) as (ph & Hph).
  open_state s. run_controller.
  destruct running0; [eexists; reflexivity|].
  rewrite Hph. destruct prefersReduced0; eexists; reflexivity.
Qed.

Lemma tick_defined (s : State) :
  phase_in_range s -> exists s', tick s = Some s'.
Proof.
  intros Hp. destruct (running (vars s)) eqn:Hrun.
  - destruct (tick_running s Hrun Hp) as (s' & E & _). eauto.
  - rewrite tick_not_running by exact Hrun. eauto.
Qed.

Lemma handle_defined (e : event) (s : State) :
  consistent s -> exists s', handle e s = Some s'.
Proof.
  intros [Hp _]. destruct e; cbn [handle]; eauto using start_defined.
  destruct (Timers.is_active h (timers s)); eauto using tick_defined.
Qed.

(** An invocation of [tick] is an event of the page: the interval of a
    running timer fires, and [tick] does nothing otherwise. *)
Lemma reachable_tick (s s' : State) :
  reachable s -> tick s = Some s' -> reachable s'.
Proof.
  intros Hr H. destruct (running (vars s)) eqn:Hrun.
  - destruct (reachable_consistent s Hr) as [_ Ht].
    unfold timers_coherent in Ht. rewrite Hrun in Ht.
    destruct Ht as (h & _ & Ha & _).
    apply (reach_event s (interval_fires h)); [exact Hr|].
    cbn [handle]. unfold Timers.is_active. rewrite Ha. simpl.
    now rewrite Nat.eqb_refl.
  - rewrite tick_not_running in H by exact Hrun. now injection H as <-.
Qed.

Lemma reachable_ticks (n : nat) :
  forall s s', reachable s -> ticks n s = Some s' -> reachable s'.
Proof.
  induction n as [|n IH]; intros s s' Hr H; cbn [ticks] in H.
  - now injection H as <-.
  - destruct (tick s) as [s1|] eqn:E; [|discriminate].
    eapply IH; [eapply reachable_tick|]; eassumption.
Qed.

Lemma ticks_add (n m : nat) :
  forall s, ticks (n + m) s
            = match ticks n s with
              | Some s' => ticks m s'
              | None => None
              end.
Proof.
  induction n as [|n IH]; intros s; cbn [ticks Nat.add]; [reflexivity|].
  destruct (tick s); [apply IH|reflexivity].
Qed.

Lemma or_default_nonzero (n d : Z) :
  n <> 0 -> JS.or_default (Some n) d = n.
Proof.
  intros H. unfold JS.or_default. destruct (Z.eqb_spec n 0); congruence.
Qed.

(** *** [reset] *)

(** Every tempo and duration can be read from the controls: with the
    numerals of [t] and [d] as the values of the two [select] elements,
    [parseInt] gives [t] and [d] back. *)
Lemma numerals_in_controls (s : State) (t d : Z) :
  let s' := set_durSel_value (set_tempoSel_value s (JS.toString t))
              (JS.toString d) in
  JS.parseInt (tempoSel_value (dom s')) = Some t
  /\ JS.parseInt (durSel_value (dom s')) = Some d
  /\ vars s' = vars s
  /\ timers s' = timers s.
Proof.
  open_state s. run_controller.
  repeat split; apply parseInt_toString.
Qed.

(** The resting scale: what [setPhase] writes for the phases "exhale" and
    "hold2" is the [scale(1)] that [reset] and the end of a session
    write. *)
Lemma resting_transform (p : Z) (s s' : State) :
  p = 2 \/ p = 3 -> setPhase p s = Some s' ->
  circle_transform (dom s') = "scale(1)".
Proof.
  intros [-> | ->] H; open_state s; run_controller;
    change (phases_at 2) with (nth_error phases 2) in H;
    change (phases_at 3) with (nth_error phases 3) in H;
    cbn [nth_error phases] in H;
    destruct prefersReduced0; injection H as <-; reflexivity.
Qed.

(** C1. Whatever the state [reset ()] is called in, when the tempo
    control reads [t > 0] and the duration control reads [d > 0], the
    state after it has [timeLeft = d], [phaseTimeLeft = t] and
    [phaseIdx = 0], the label shows "Ready" and the circle is at the
    resting scale, [scale(1)]; the timer is stopped. *)
Theorem reset_restores_configuration (s : State) (t d : Z) :
  0 < t -> 0 < d ->
  JS.parseInt (tempoSel_value (dom s)) = Some t ->
  JS.parseInt (durSel_value (dom s)) = Some d ->
  timeLeft (vars (reset s)) = d
  /\ phaseTimeLeft (vars (reset s)) = t
  /\ phaseIdx (vars (reset s)) = 0
  /\ cue_textContent (dom (reset s)) = "Ready"
  /\ circle_transform (dom (reset s)) = "scale(1)"
  /\ tempo (vars (reset s)) = t
  /\ total (vars (reset s)) = d
  /\ running (vars (reset s)) = false
  /\ timeLeftEl_textContent (dom (reset s)) = fmt d.
Proof.
  intros Ht Hd Pt Pd. open_state s. run_controller.
  rewrite Pt, Pd, !or_default_nonzero by lia.
  repeat split; reflexivity.
Qed.

Lemma reset_restores_configuration_witness :
  let s := mkState (mkVars false 60 4 2 1 17 true (Some 5%nat))
             (mkDom "6" "120" "Exhale" "transform 4s ease-in-out"
                "scale(1)" "00:17" true false false)
             (Timers.mkTable 6 [5%nat]) in
  timeLeft (vars (reset s)) = 120
  /\ phaseTimeLeft (vars (reset s)) = 6
  /\ phaseIdx (vars (reset s)) = 0
  /\ cue_textContent (dom (reset s)) = "Ready"
  /\ circle_transform (dom (reset s)) = "scale(1)"
  /\ tempo (vars (reset s)) = 6
  /\ total (vars (reset s)) = 120
  /\ running (vars (reset s)) = false
  /\ timeLeftEl_textContent (dom (reset s)) = fmt 120.
Proof.
  intros s.
  apply (reset_restores_configuration s 6 120);
    [lia | lia | reflexivity | reflexivity].
Defined.

(** *** The change listeners *)

(** C8. A change of the duration sets [timeLeft] to the smaller of
    [timeLeft] and the new total, and leaves the phase index, the time
    left in the phase, the tempo and the running flag as they were (the
    interval and the table of intervals too). *)
Theorem duration_change_clamps_timeLeft (s : State) :
  let s' := durSel_change s in
  total (vars s') = JS.or_default (JS.parseInt (durSel_value (dom s))) 60
  /\ timeLeft (vars s') = Z.min (timeLeft (vars s)) (total (vars s'))
  /\ phaseIdx (vars s') = phaseIdx (vars s)
  /\ phaseTimeLeft (vars s') = phaseTimeLeft (vars s)
  /\ tempo (vars s') = tempo (vars s)
  /\ running (vars s') = running (vars s)
  /\ interval (vars s') = interval (vars s)
  /\ timers s' = timers s
  /\ cue_textContent (dom s') = cue_textContent (dom s)
  /\ circle_transform (dom s') = circle_transform (dom s)
  /\ circle_transition (dom s') = circle_transition (dom s).
Proof.
  open_state s. run_controller. unfold JS.Math_min.
  repeat split; reflexivity.
Qed.

(** C10. A control value that parses to the integer 0 gives the default
    (tempo 4, duration 60) in [reset] and in the change listeners, and a
    value that parses to a negative integer is taken as it is: the tempo
    and the time left in the phase, or the total and the time left, become
    that negative integer. *)
Theorem zero_defaults_negative_accepted (s : State) :
  (JS.parseInt (tempoSel_value (dom s)) = Some 0 ->
     tempo (vars (reset s)) = 4
     /\ tempo (vars (tempoSel_change s)) = 4)
  /\ (JS.parseInt (durSel_value (dom s)) = Some 0 ->
     total (vars (reset s)) = 60
     /\ total (vars (durSel_change s)) = 60)
  /\ (forall n, n < 0 ->
     JS.parseInt (tempoSel_value (dom s)) = Some n ->
     tempo (vars (reset s)) = n
     /\ phaseTimeLeft (vars (reset s)) = n
     /\ tempo (vars (tempoSel_change s)) = n
     /\ phaseTimeLeft (vars (tempoSel_change s)) = n)
  /\ (forall n, n < 0 ->
     JS.parseInt (durSel_value (dom s)) = Some n ->
     total (vars (reset s)) = n
     /\ timeLeft (vars (reset s)) = n
     /\ total (vars (durSel_change s)) = n).
Proof.
  open_state s. run_controller. repeat split.
  all: try match goal with H : JS.parseInt _ = Some 0 |- _ =>
               rewrite H; reflexivity end.
  all: match goal with H : JS.parseInt _ = Some ?n |- _ =>
           rewrite H; apply or_default_nonzero; lia end.
Qed.

Lemma zero_defaults_negative_accepted_witness :
  (let s := practiceController (sample_page "0" "0") false 1 in
   tempo (vars (tempoSel_change s)) = 4
   /\ total (vars (durSel_change s)) = 60
   /\ tempo (vars (reset s)) = 4 /\ total (vars (reset s)) = 60)
  /\ (let s := practiceController (sample_page "-3" "-90") false 1 in
      tempo (vars (tempoSel_change s)) = -3
      /\ phaseTimeLeft (vars (tempoSel_change s)) = -3
      /\ total (vars (durSel_change s)) = -90
      /\ timeLeft (vars (reset s)) = -90).
Proof.
  split; intros s.
  - destruct (zero_defaults_negative_accepted s) as (Ht & Hd & _ & _).
    destruct (Ht eq_refl) as [? ?]. destruct (Hd eq_refl) as [? ?].
    auto.
  - destruct (zero_defaults_negative_accepted s) as (_ & _ & Ht & Hd).
    destruct (Ht (-3) ltac:(lia) eq_refl) as (_ & _ & ? & ?).
    destruct (Hd (-90) ltac:(lia) eq_refl) as (_ & ? & ?).
    auto.
Defined.

Lemma two_ticks_in_reachable (s : State) :
  two_ticks_in = Some s -> reachable s.
Proof.
  unfold two_ticks_in. intros H.
  destruct (start _) as [s0|] eqn:E; [|discriminate].
  eapply reachable_ticks; [|exact H].
  eapply (reach_event _ click_start); [apply reach_load|exact E].
Qed.

(** C4, as the specification states it, fails: two ticks into a phase of
    4 seconds the time left in the phase is 2, and the change of the tempo
    to 6 makes it 6 at once, before the phase has ended. *)
Lemma tempo_change_is_immediate :
  exists s,
    two_ticks_in = Some s
    /\ reachable s
    /\ running (vars s) = true
    /\ phaseTimeLeft (vars s) = 2
    /\ handle (change_tempo "6") s
       = Some (tempoSel_change (set_tempoSel_value s "6"))
    /\ phaseTimeLeft (vars (tempoSel_change (set_tempoSel_value s "6"))) = 6
    /\ phaseTimeLeft (vars (tempoSel_change (set_tempoSel_value s "6")))
       <> phaseTimeLeft (vars s).
Proof.
  eexists. split; [vm_compute; reflexivity|].
  split; [apply two_ticks_in_reachable; vm_compute; reflexivity|].
  vm_compute. repeat split; congruence.
Qed.

(** *** [start] *)

(** C5. In every reachable state [start ()] returns, and a second
    [start ()] right after it changes nothing at all: the closure
    variables, the page and the table of intervals are those the first
    call left.  Called while the timer runs, [start ()] changes
    nothing. *)
Theorem start_idempotent (s : State) :
  reachable s ->
  exists s1,
    start s = Some s1
    /\ start s1 = Some s1
    /\ (running (vars s) = true -> s1 = s).
Proof.
  intros Hr. destruct (reachable_consistent s Hr) as [Hp _].
  destruct (phases_at_in_range _ Hp) as (ph & Hph).
  open_state s. run_controller.
  destruct running0.
  - eexists. repeat split; reflexivity.
  - rewrite Hph. destruct prefersReduced0;
      eexists; repeat split; try reflexivity; discriminate.
Qed.

Lemma start_idempotent_witness :
  exists s1,
    start (practiceController (sample_page "4" "60") false 1) = Some s1
    /\ start s1 = Some s1
    /\ (running (vars (practiceController (sample_page "4" "60") false 1))
        = true ->
        s1 = practiceController (sample_page "4" "60") false 1).
Proof.
  apply (start_idempotent
           (practiceController (sample_page "4" "60") false 1)).
  apply reach_load.
Defined.

(** *** The intervals *)

(** C6, as the specification states it, fails for [start]: the started
    timer is a reachable state in which the interval 1 is registered, and
    [start ()] there cancels nothing, the interval 1 is still registered
    after it. *)
Lemma start_cancels_nothing :
  exists s s',
    started = Some s
    /\ reachable s
    /\ Timers.active (timers s) = [1%nat]
    /\ start s = Some s'
    /\ Timers.active (timers s') = [1%nat]
    /\ ~ (forall h, In h (Timers.active (timers s)) ->
                    ~ In h (Timers.active (timers s'))).
Proof.
  eexists. eexists. split; [vm_compute; reflexivity|].
  split.
  { apply (reach_event
             (practiceController (sample_page "4" "60") false 1)
             click_start); [apply reach_load|].
    vm_compute. reflexivity. }
  split; [reflexivity|]. split; [vm_compute; reflexivity|].
  split; [reflexivity|].
  intros H. apply (H 1%nat); simpl; auto.
Qed.

(** C6, amended. In every reachable state at most one interval is
    registered, and none when the timer is not running.  [pause ()] and
    [reset ()] leave no interval registered.  [start ()] cancels nothing:
    while the timer runs it leaves the table of intervals as it is, and
    otherwise, when no interval is registered, it registers one new
    interval. *)
Theorem at_most_one_interval (s : State) :
  reachable s ->
  (List.length (Timers.active (timers s)) <= 1)%nat
  /\ (running (vars s) = false -> Timers.active (timers s) = [])
  /\ Timers.active (timers (pause s)) = []
  /\ Timers.active (timers (reset s)) = []
  /\ exists s',
       start s = Some s'
       /\ (List.length (Timers.active (timers s')) = 1)%nat
       /\ if running (vars s)
          then timers s' = timers s
          else Timers.active (timers s) = []
               /\ Timers.active (timers s')
                  = [Timers.next_handle (timers s)].
Proof.
  intros Hr. pose proof (reachable_consistent s Hr) as Hc.
  pose proof (clear_own_interval s (proj2 Hc)) as Hclr.
  destruct Hc as [Hp Ht].
  destruct (phases_at_in_range _ Hp) as (ph & Hph).
  unfold timers_coherent in Ht.
  open_state s. run_controller.
  destruct running0.
  - destruct Ht as (h & -> & -> & Hlt). simpl in Hclr |- *.
    repeat split; auto; try discriminate.
    eexists. repeat split; reflexivity.
  - subst active. simpl.
    repeat split; auto.
    rewrite Hph. destruct prefersReduced0;
      eexists; repeat split; reflexivity.
Qed.

Lemma started_state_reachable : reachable started_state.
Proof.
  apply (reach_event (practiceController (sample_page "4" "60") false 1)
           click_start); [apply reach_load|].
  vm_compute. reflexivity.
Qed.

Lemma at_most_one_interval_witness :
  (List.length (Timers.active (timers started_state)) <= 1)%nat
  /\ Timers.active (timers (pause started_state)) = []
  /\ Timers.active (timers (reset started_state)) = []
  /\ exists s', start started_state = Some s'
                /\ timers s' = timers started_state.
Proof.
  destruct (at_most_one_interval started_state started_state_reachable)
    as (H1 & _ & H2 & H3 & s' & H4 & _ & H5).
  repeat split; auto. exists s'. split; [exact H4|exact H5].
Defined.

(** *** The countdown *)

Lemma ticks_running (k : nat) :
  forall s,
    consistent s -> running (vars s) = true ->
    Z.of_nat k <= timeLeft (vars s) ->
    exists s',
      ticks k s = Some s'
      /\ consistent s'
      /\ running (vars s') = true
      /\ timeLeft (vars s') = timeLeft (vars s) - Z.of_nat k
      /\ tempo (vars s') = tempo (vars s)
      /\ timers s' = timers s.
Proof.
  induction k as [|k IH]; intros s Hc Hrun Hk; cbn [ticks].
  - exists s. repeat split; auto; try apply Hc. lia.
  - destruct (tick_running s Hrun (proj1 Hc))
      as (s1 & E & _ & Ht & _ & _ & _ & _ & _ & _ & Hcase).
    rewrite E.
    destruct (Z.leb_spec (timeLeft (vars s)) 0); [lia|].
    destruct Hcase as (Hrun1 & Htl & _ & Htm & _).
    destruct (IH s1) as (s' & E' & Hc' & Hrun' & Htl' & Ht' & Htm');
      [eapply consistent_tick; eassumption | exact Hrun1 | lia |].
    exists s'. repeat split; try assumption; try apply Hc'; try congruence.
    lia.
Qed.

Lemma tick_at_zero (s : State) :
  consistent s -> running (vars s) = true -> timeLeft (vars s) <= 0 ->
  exists s',
    tick s = Some s'
    /\ consistent s'
    /\ running (vars s') = false
    /\ timeLeft (vars s') = timeLeft (vars s)
    /\ Timers.active (timers s') = []
    /\ cue_textContent (dom s') = "Complete"
    /\ circle_transform (dom s') = "scale(1)".
Proof.
  intros Hc Hrun Hz.
  destruct (tick_running s Hrun (proj1 Hc))
    as (s1 & E & _ & _ & _ & _ & _ & _ & _ & _ & Hcase).
  destruct (Z.leb_spec (timeLeft (vars s)) 0); [|lia].
  destruct Hcase as (Hrun1 & Htl & _ & Htm & Hcue & Hsc).
  exists s1.
  split; [exact E|].
  split; [eapply consistent_tick; eassumption|].
  split; [exact Hrun1|]. split; [exact Htl|].
  split; [rewrite Htm; apply clear_own_interval, Hc|].
  split; assumption.
Qed.

Lemma ticks_not_running (k : nat) (s : State) :
  running (vars s) = false -> ticks k s = Some s.
Proof.
  intros H. induction k as [|k IH]; cbn [ticks]; [reflexivity|].
  now rewrite tick_not_running.
Qed.

(** C3. A running timer with [n] seconds left: each of the first [n]
    ticks takes exactly one second off [timeLeft] and leaves the timer
    running; the tick that finds [timeLeft] at 0 stops the timer (the
    interval is cleared) without touching [timeLeft]; and after any
    larger number of ticks [timeLeft] is still 0, never negative, and the
    timer is stopped. *)
Theorem countdown_to_zero (s : State) (n : nat) :
  consistent s ->
  running (vars s) = true ->
  timeLeft (vars s) = Z.of_nat n ->
  (forall k, (k < n)%nat ->
     exists s1 s2,
       ticks k s = Some s1 /\ tick s1 = Some s2
       /\ running (vars s1) = true
       /\ timeLeft (vars s2) = timeLeft (vars s1) - 1
       /\ timeLeft (vars s1) = Z.of_nat n - Z.of_nat k)
  /\ (exists s1 s2,
        ticks n s = Some s1 /\ tick s1 = Some s2
        /\ running (vars s1) = true /\ timeLeft (vars s1) = 0
        /\ running (vars s2) = false /\ timeLeft (vars s2) = 0
        /\ Timers.active (timers s2) = [])
  /\ (forall k, (n < k)%nat ->
        exists s',
          ticks k s = Some s'
          /\ running (vars s') = false
          /\ timeLeft (vars s') = 0
          /\ Timers.active (timers s') = []).
Proof.
  intros Hc Hrun Hn.
  assert (Hstop : exists s1 s2,
             ticks n s = Some s1 /\ tick s1 = Some s2
             /\ running (vars s1) = true /\ timeLeft (vars s1) = 0
             /\ running (vars s2) = false /\ timeLeft (vars s2) = 0
             /\ Timers.active (timers s2) = []).
  { destruct (ticks_running n s Hc Hrun ltac:(lia))
      as (s1 & E1 & Hc1 & Hrun1 & Htl1 & _).
    destruct (tick_at_zero s1 Hc1 Hrun1 ltac:(lia))
      as (s2 & E2 & _ & Hrun2 & Htl2 & Ha & _).
    exists s1, s2. repeat split; auto; lia. }
  repeat split.
  - intros k Hk.
    destruct (ticks_running k s Hc Hrun ltac:(lia))
      as (s1 & E1 & Hc1 & Hrun1 & Htl1 & _).
    destruct (ticks_running 1 s1 Hc1 Hrun1 ltac:(lia))
      as (s2 & E2 & _ & _ & Htl2 & _).
    cbn [ticks] in E2. destruct (tick s1) as [s2'|] eqn:E; [|discriminate].
    injection E2 as ->.
    exists s1, s2. repeat split; auto; lia.
  - exact Hstop.
  - intros k Hk. destruct Hstop as (s1 & s2 & E1 & E2 & _ & _ & Hr2 & Ht2 & Ha).
    replace k with (n + S (k - n - 1))%nat by lia.
    rewrite ticks_add, E1. cbn [ticks]. rewrite E2.
    rewrite ticks_not_running by exact Hr2.
    exists s2. auto.
Qed.

Lemma countdown_to_zero_witness :
  (exists s1 s2,
     ticks 60 started_state = Some s1 /\ tick s1 = Some s2
     /\ running (vars s1) = true /\ timeLeft (vars s1) = 0
     /\ running (vars s2) = false /\ timeLeft (vars s2) = 0
     /\ Timers.active (timers s2) = [])
  /\ (exists s', ticks 75 started_state = Some s'
                 /\ running (vars s') = false
                 /\ timeLeft (vars s') = 0
                 /\ Timers.active (timers s') = []).
Proof.
  destruct (countdown_to_zero started_state 60
              (reachable_consistent _ started_state_reachable)
              eq_refl eq_refl) as (_ & H1 & H2).
  split; [exact H1|]. apply H2. lia.
Defined.

(** *** A session of 8 seconds at tempo 4 *)

(** C2, as the specification states it, fails: with the controls at 4 and
    8, the state after [start ()] and 8 ticks has [timeLeft = 0] but the
    timer still runs, its interval is registered and the label reads
    "Hold"; it is not the Complete state. *)
Lemma not_complete_after_8_ticks :
  exists s0 s8,
    start (practiceController (sample_page "4" "8") false 1) = Some s0
    /\ ticks 8 s0 = Some s8
    /\ timeLeft (vars s8) = 0
    /\ running (vars s8) = true
    /\ cue_textContent (dom s8) = "Hold"
    /\ Timers.active (timers s8) = [1%nat]
    /\ ~ (running (vars s8) = false
          /\ cue_textContent (dom s8) = "Complete"
          /\ timeLeft (vars s8) = 0).
Proof.
  eexists. eexists. split; [vm_compute; reflexivity|].
  split; [vm_compute; reflexivity|].
  vm_compute. repeat split; try reflexivity.
  intros (H & _). discriminate.
Qed.

(** C2, amended. With the controls at 4 and 8, [start ()] from the state
    the page loads in and 8 ticks bring [timeLeft] to 0 with the timer
    still running and the label at "Hold"; the 9th tick puts the timer in
    the Complete state: it no longer runs, no interval is registered, the
    label reads "Complete", the circle is at [scale(1)] and [timeLeft] is
    0. *)
Theorem complete_after_9_ticks (page : Dom) (reduced : bool) (h : nat) :
  JS.parseInt (tempoSel_value page) = Some 4 ->
  JS.parseInt (durSel_value page) = Some 8 ->
  exists s0 s8 s9,
    start (practiceController page reduced h) = Some s0
    /\ ticks 8 s0 = Some s8
    /\ timeLeft (vars s8) = 0
    /\ running (vars s8) = true
    /\ cue_textContent (dom s8) = "Hold"
    /\ tick s8 = Some s9
    /\ ticks 9 s0 = Some s9
    /\ running (vars s9) = false
    /\ Timers.active (timers s9) = []
    /\ cue_textContent (dom s9) = "Complete"
    /\ circle_transform (dom s9) = "scale(1)"
    /\ timeLeft (vars s9) = 0.
Proof.
  intros Pt Pd.
  assert (Hload : practiceController page reduced h
                  = mkState (mkVars reduced 8 4 0 4 8 false None)
                      (mkDom (tempoSel_value page) (durSel_value page)
                         "Ready" (circle_transition page) "scale(1)"
                         "00:08" false true (resetBtn_disabled page))
                      (Timers.mkTable h [])).
  { destruct page. run_controller. rewrite Pt, Pd. reflexivity. }
  pose proof (reach_load page reduced h) as Hr.
  rewrite Hload in *. clear Hload.
  assert (H8 : exists s0 s8,
             start (mkState (mkVars reduced 8 4 0 4 8 false None)
                      (mkDom (tempoSel_value page) (durSel_value page)
                         "Ready" (circle_transition page) "scale(1)"
                         "00:08" false true (resetBtn_disabled page))
                      (Timers.mkTable h [])) = Some s0
             /\ ticks 8 s0 = Some s8
             /\ timeLeft (vars s8) = 0
             /\ running (vars s8) = true
             /\ cue_textContent (dom s8) = "Hold").
  { destruct reduced; eexists; eexists;
      (split; [vm_compute; reflexivity|]);
      (split; [vm_compute; reflexivity|]);
      repeat split; reflexivity. }
  destruct H8 as (s0 & s8 & E0 & E8 & Ht8 & Hr8 & Hc8).
  assert (Hreach : reachable s8).
  { eapply reachable_ticks; [|exact E8].
    eapply (reach_event _ click_start); [exact Hr|exact E0]. }
  destruct (tick_at_zero s8 (reachable_consistent _ Hreach) Hr8 ltac:(lia))
    as (s9 & E9 & _ & Hr9 & Ht9 & Ha9 & Hc9 & Hs9).
  exists s0, s8, s9. repeat split; try assumption.
  - change 9%nat with (8 + 1)%nat. rewrite ticks_add, E8.
    cbn [ticks]. now rewrite E9.
  - lia.
Qed.

Lemma complete_after_9_ticks_witness :
  exists s0 s9,
    start (practiceController (sample_page "4" "8") true 1) = Some s0
    /\ ticks 9 s0 = Some s9
    /\ running (vars s9) = false
    /\ cue_textContent (dom s9) = "Complete"
    /\ timeLeft (vars s9) = 0.
Proof.
  destruct (complete_after_9_ticks (sample_page "4" "8") true 1
              eq_refl eq_refl)
    as (s0 & s8 & s9 & H0 & _ & _ & _ & _ & _ & H9 & Hr & _ & Hc & _ & Ht).
  exists s0, s9. repeat split; assumption.
Defined.

(** *** The cycle of the phases *)

Lemma start_vars (s s' : State) :
  start s = Some s' ->
  running (vars s') = true
  /\ phaseIdx (vars s') = phaseIdx (vars s)
  /\ phaseTimeLeft (vars s') = phaseTimeLeft (vars s)
  /\ timeLeft (vars s') = timeLeft (vars s)
  /\ tempo (vars s') = tempo (vars s)
  /\ total (vars s') = total (vars s).
Proof.
  open_state s. run_controller. destruct running0.
  - intros H. injection H as <-. run_controller. repeat split.
  - destruct (phases_at phaseIdx0); [|discriminate].
    destruct prefersReduced0; intros H; injection H as <-;
      run_controller; repeat split.
Qed.

Lemma reset_vars (s : State) :
  phaseIdx (vars (reset s)) = 0
  /\ tempo (vars (reset s))
     = JS.or_default (JS.parseInt (tempoSel_value (dom s))) 4
  /\ phaseTimeLeft (vars (reset s)) = tempo (vars (reset s))
  /\ total (vars (reset s))
     = JS.or_default (JS.parseInt (durSel_value (dom s))) 60
  /\ timeLeft (vars (reset s)) = total (vars (reset s))
  /\ running (vars (reset s)) = false.
Proof. open_state s. run_controller. repeat split. Qed.

(** While the time left in the phase is positive, ticks leave the phase
    index alone, whether the timer runs, is paused or completes. *)
Lemma ticks_keep_phase (k : nat) :
  forall s,
    consistent s ->
    Z.of_nat k <= phaseTimeLeft (vars s) ->
    exists s',
      ticks k s = Some s'
      /\ consistent s'
      /\ phaseIdx (vars s') = phaseIdx (vars s)
      /\ phaseTimeLeft (vars s) - Z.of_nat k <= phaseTimeLeft (vars s').
Proof.
  induction k as [|k IH]; intros s Hc Hk; cbn [ticks].
  - exists s. repeat split; try apply Hc; lia.
  - destruct (running (vars s)) eqn:Hrun.
    + destruct (tick_running s Hrun (proj1 Hc))
        as (s1 & E & _ & _ & _ & _ & _ & _ & _ & Hidx & Hcase).
      rewrite E.
      destruct (Z.leb_spec (phaseTimeLeft (vars s)) 0); [lia|].
      assert (Hp1 : phaseTimeLeft (vars s) - 1 <= phaseTimeLeft (vars s1)).
      { destruct (timeLeft (vars s) <=? 0);
          destruct Hcase as (_ & _ & -> & _); lia. }
      destruct (IH s1) as (s' & E' & Hc' & Hidx' & Hp');
        [eapply consistent_tick; eassumption | lia |].
      exists s'. split; [exact E'|]. split; [exact Hc'|].
      split; [congruence|lia].
    + rewrite tick_not_running by exact Hrun.
      destruct (IH s Hc ltac:(lia)) as (s' & E' & Hc' & Hidx' & Hp').
      exists s'. split; [exact E'|]. split; [exact Hc'|].
      split; [exact Hidx'|lia].
Qed.

(** [k] ticks of a running timer inside a phase. *)
Lemma ticks_within_phase (k : nat) :
  forall s,
    consistent s -> running (vars s) = true ->
    Z.of_nat k <= phaseTimeLeft (vars s) ->
    Z.of_nat k <= timeLeft (vars s) ->
    exists s',
      ticks k s = Some s'
      /\ consistent s'
      /\ running (vars s') = true
      /\ tempo (vars s') = tempo (vars s)
      /\ phaseIdx (vars s') = phaseIdx (vars s)
      /\ phaseTimeLeft (vars s') = phaseTimeLeft (vars s) - Z.of_nat k
      /\ timeLeft (vars s') = timeLeft (vars s) - Z.of_nat k.
Proof.
  induction k as [|k IH]; intros s Hc Hrun Hk Hl; cbn [ticks].
  - exists s. repeat split; try apply Hc; auto; lia.
  - destruct (tick_running s Hrun (proj1 Hc))
      as (s1 & E & _ & Htempo & _ & _ & _ & _ & _ & Hidx & Hcase).
    rewrite E.
    destruct (Z.leb_spec (phaseTimeLeft (vars s)) 0); [lia|].
    destruct (Z.leb_spec (timeLeft (vars s)) 0); [lia|].
    destruct Hcase as (Hrun1 & Htl1 & Hp1 & _).
    destruct (IH s1) as (s' & E' & Hc' & Hrun' & Ht' & Hidx' & Hp' & Hl');
      [eapply consistent_tick; eassumption | exact Hrun1 | lia | lia |].
    exists s'. split; [exact E'|]. split; [exact Hc'|].
    split; [exact Hrun'|]. split; [congruence|]. split; [congruence|].
    split; lia.
Qed.

(** The tick of a running timer at the end of a phase. *)
Lemma tick_phase_change (s : State) :
  consistent s -> running (vars s) = true ->
  phaseTimeLeft (vars s) <= 0 -> 0 < timeLeft (vars s) ->
  exists s',
    tick s = Some s'
    /\ consistent s'
    /\ running (vars s') = true
    /\ tempo (vars s') = tempo (vars s)
    /\ phaseIdx (vars s') = next_phase (phaseIdx (vars s))
    /\ phaseTimeLeft (vars s') = tempo (vars s) - 1
    /\ timeLeft (vars s') = timeLeft (vars s) - 1.
Proof.
  intros Hc Hrun Hp Hl.
  destruct (tick_running s Hrun (proj1 Hc))
    as (s1 & E & _ & Htempo & _ & _ & _ & _ & _ & Hidx & Hcase).
  destruct (Z.leb_spec (phaseTimeLeft (vars s)) 0); [|lia].
  destruct (Z.leb_spec (timeLeft (vars s)) 0); [lia|].
  destruct Hcase as (Hrun1 & Htl1 & Hp1 & _).
  exists s1. split; [exact E|].
  split; [eapply consistent_tick; eassumption|].
  repeat split; assumption.
Qed.

(** One tempo's worth of ticks moves a running timer to the same point
    of the next phase. *)
Lemma ticks_one_phase (s : State) :
  consistent s -> running (vars s) = true ->
  0 <= phaseTimeLeft (vars s) < tempo (vars s) ->
  tempo (vars s) <= timeLeft (vars s) ->
  exists s',
    ticks (Z.to_nat (tempo (vars s))) s = Some s'
    /\ consistent s'
    /\ running (vars s') = true
    /\ tempo (vars s') = tempo (vars s)
    /\ phaseIdx (vars s') = next_phase (phaseIdx (vars s))
    /\ phaseTimeLeft (vars s') = phaseTimeLeft (vars s)
    /\ timeLeft (vars s') = timeLeft (vars s) - tempo (vars s).
Proof.
  intros Hc Hrun Hp Hl.
  replace (Z.to_nat (tempo (vars s)))
    with (Z.to_nat (phaseTimeLeft (vars s))
          + (1 + Z.to_nat (tempo (vars s) - 1 - phaseTimeLeft (vars s))))%nat
    by lia.
  destruct (ticks_within_phase (Z.to_nat (phaseTimeLeft (vars s))) s Hc Hrun)
    as (s1 & E1 & Hc1 & Hr1 & Ht1 & Hi1 & Hp1 & Hl1); [lia | lia |].
  destruct (tick_phase_change s1 Hc1 Hr1)
    as (s2 & E2 & Hc2 & Hr2 & Ht2 & Hi2 & Hp2 & Hl2); [lia | lia |].
  destruct (ticks_within_phase
              (Z.to_nat (tempo (vars s) - 1 - phaseTimeLeft (vars s)))
              s2 Hc2 Hr2)
    as (s3 & E3 & Hc3 & Hr3 & Ht3 & Hi3 & Hp3 & Hl3); [lia | lia |].
  rewrite ticks_add, E1, ticks_add. cbn [ticks]. rewrite E2, E3.
  exists s3. split; [reflexivity|]. split; [exact Hc3|].
  split; [exact Hr3|]. split; [congruence|]. split; [congruence|].
  split; lia.
Qed.

Lemma next_phase_four_times (p : Z) :
  0 <= p < 4 -> next_phase (next_phase (next_phase (next_phase p))) = p.
Proof.
  intros H. destruct (phase_cases p H) as [E|[E|[E|E]]]; subst p;
    reflexivity.
Qed.

(** Four tempos' worth of ticks bring a running timer back to the same
    point of the same phase. *)
Lemma ticks_full_cycle (s : State) :
  consistent s -> running (vars s) = true ->
  0 <= phaseTimeLeft (vars s) < tempo (vars s) ->
  4 * tempo (vars s) <= timeLeft (vars s) ->
  exists s',
    ticks (Z.to_nat (4 * tempo (vars s))) s = Some s'
    /\ phaseIdx (vars s') = phaseIdx (vars s)
    /\ phaseTimeLeft (vars s') = phaseTimeLeft (vars s)
    /\ timeLeft (vars s') = timeLeft (vars s) - 4 * tempo (vars s).
Proof.
  intros Hc Hrun Hp Hl.
  replace (Z.to_nat (4 * tempo (vars s)))
    with (Z.to_nat (tempo (vars s))
          + (Z.to_nat (tempo (vars s))
             + (Z.to_nat (tempo (vars s)) + Z.to_nat (tempo (vars s)))))%nat
    by lia.
  destruct (ticks_one_phase s Hc Hrun)
    as (s1 & E1 & Hc1 & Hr1 & Ht1 & Hi1 & Hp1 & Hl1); [lia | lia |].
  destruct (ticks_one_phase s1 Hc1 Hr1)
    as (s2 & E2 & Hc2 & Hr2 & Ht2 & Hi2 & Hp2 & Hl2); [lia | lia |].
  rewrite Ht1 in E2, Ht2, Hl2.
  destruct (ticks_one_phase s2 Hc2 Hr2)
    as (s3 & E3 & Hc3 & Hr3 & Ht3 & Hi3 & Hp3 & Hl3); [lia | lia |].
  rewrite Ht2 in E3, Ht3, Hl3.
  destruct (ticks_one_phase s3 Hc3 Hr3)
    as (s4 & E4 & Hc4 & Hr4 & Ht4 & Hi4 & Hp4 & Hl4); [lia | lia |].
  rewrite Ht3 in E4, Ht4, Hl4.
  rewrite ticks_add, E1, ticks_add, E2, ticks_add, E3, E4.
  exists s4. split; [reflexivity|].
  split.
  - rewrite Hi4, Hi3, Hi2, Hi1. apply next_phase_four_times, Hc.
  - split; lia.
Qed.

Lemma two_ticks_state_reachable : reachable two_ticks_state.
Proof. apply two_ticks_in_reachable. vm_compute. reflexivity. Qed.

Lemma consistent_declarations (page : Dom) (reduced : bool) (h : nat) :
  consistent (declarations page reduced h).
Proof.
  unfold consistent, phase_in_range, timers_coherent. simpl.
  split; [lia|reflexivity].
Qed.

(** After [reset ()] with the tempo control at 4, [start ()] and four ticks
    leave the phase index at 0. *)
Lemma four_ticks_after_reset (s : State) :
  consistent s ->
  JS.parseInt (tempoSel_value (dom s)) = Some 4 ->
  exists s0 s4,
    start (reset s) = Some s0
    /\ tempo (vars s0) = 4
    /\ phaseIdx (vars s0) = 0
    /\ ticks 4 s0 = Some s4
    /\ phaseIdx (vars s4) = 0.
Proof.
  intros Hc Pt.
  pose proof (consistent_reset s Hc) as Hc'.
  destruct (start_defined _ (proj1 Hc')) as (s0 & E0).
  destruct (start_vars _ _ E0) as (_ & Hi0 & Hp0 & _ & Ht0 & _).
  destruct (reset_vars s) as (Hi & Ht & Hp & _).
  rewrite Pt in Ht. change (JS.or_default (Some 4) 4) with 4 in Ht.
  destruct (ticks_keep_phase 4 s0) as (s4 & E4 & _ & Hi4 & _).
  { eapply consistent_start; eassumption. }
  { rewrite Hp0, Hp, Ht. simpl. lia. }
  exists s0, s4. repeat split; try assumption; congruence.
Qed.

(** C7. In every reachable state the phase index lies in [0,4).  A tick
    of the running timer at a phase boundary (no time left in the phase)
    moves the index to the next one modulo 4, and any other tick leaves
    it.  With the tempo at 4, from the state the page loads in or from the
    state [reset ()] leaves, the index is 0 after [start ()] and 0 again
    after exactly 4 ticks.  Whatever the tempo, one tempo's worth of
    ticks moves a running timer one phase on and four tempos' worth bring
    it back to the same point of the same phase: the cycle has 4
    phases. *)
Theorem phase_index_cycles :
  (forall s, reachable s -> 0 <= phaseIdx (vars s) < 4)
  /\ (forall s, reachable s -> running (vars s) = true ->
        exists s',
          tick s = Some s'
          /\ phaseIdx (vars s')
             = if phaseTimeLeft (vars s) <=? 0
               then (phaseIdx (vars s) + 1) mod 4
               else phaseIdx (vars s))
  /\ (forall page reduced h,
        JS.parseInt (tempoSel_value page) = Some 4 ->
        exists s0 s4,
          start (practiceController page reduced h) = Some s0
          /\ tempo (vars s0) = 4
          /\ phaseIdx (vars s0) = 0
          /\ ticks 4 s0 = Some s4
          /\ phaseIdx (vars s4) = 0)
  /\ (forall s,
        reachable s ->
        JS.parseInt (tempoSel_value (dom s)) = Some 4 ->
        exists s0 s4,
          start (reset s) = Some s0
          /\ tempo (vars s0) = 4
          /\ phaseIdx (vars s0) = 0
          /\ ticks 4 s0 = Some s4
          /\ phaseIdx (vars s4) = 0)
  /\ (forall s, reachable s -> running (vars s) = true ->
        0 <= phaseTimeLeft (vars s) < tempo (vars s) ->
        4 * tempo (vars s) <= timeLeft (vars s) ->
        exists s1 s4,
          ticks (Z.to_nat (tempo (vars s))) s = Some s1
          /\ phaseIdx (vars s1) = (phaseIdx (vars s) + 1) mod 4
          /\ phaseTimeLeft (vars s1) = phaseTimeLeft (vars s)
          /\ ticks (Z.to_nat (4 * tempo (vars s))) s = Some s4
          /\ phaseIdx (vars s4) = phaseIdx (vars s)
          /\ phaseTimeLeft (vars s4) = phaseTimeLeft (vars s)).
Proof.
  split; [|split; [|split; [|split]]].
  - intros s Hr. apply (reachable_consistent s Hr).
  - intros s Hr Hrun.
    destruct (reachable_consistent s Hr) as [Hp _].
    destruct (tick_running s Hrun Hp)
      as (s' & E & _ & _ & _ & _ & _ & _ & _ & Hidx & _).
    exists s'. split; [exact E|]. rewrite Hidx.
    destruct (phaseTimeLeft (vars s) <=? 0); [|reflexivity].
    apply next_phase_mod. unfold phase_in_range in Hp. lia.
  - intros page reduced h Pt.
    apply (four_ticks_after_reset (declarations page reduced h));
      [apply consistent_declarations|exact Pt].
  - intros s Hr Pt.
    apply four_ticks_after_reset; [apply reachable_consistent, Hr|exact Pt].
  - intros s Hr Hrun Hp Hl.
    pose proof (reachable_consistent s Hr) as Hc.
    destruct (ticks_one_phase s Hc Hrun Hp ltac:(lia))
      as (s1 & E1 & _ & _ & _ & Hi1 & Hp1 & _).
    destruct (ticks_full_cycle s Hc Hrun Hp Hl)
      as (s4 & E4 & Hi4 & Hp4 & _).
    exists s1, s4. repeat split; try assumption.
    rewrite Hi1. apply next_phase_mod.
    destruct Hc as [Hc _]. unfold phase_in_range in Hc. lia.
Qed.

Lemma phase_index_cycles_witness :
  0 <= phaseIdx (vars started_state) < 4
  /\ (exists s0 s4,
        start (practiceController (sample_page "4" "60") false 1) = Some s0
        /\ ticks 4 s0 = Some s4
        /\ phaseIdx (vars s4) = 0)
  /\ (exists s1 s4,
        ticks 4 two_ticks_state = Some s1
        /\ phaseIdx (vars s1) = 1
        /\ ticks 16 two_ticks_state = Some s4
        /\ phaseIdx (vars s4) = 0
        /\ phaseTimeLeft (vars s4) = 2).
Proof.
  destruct phase_index_cycles as (Ha & _ & Hc & _ & Hd).
  split; [apply Ha, started_state_reachable|].
  split.
  - destruct (Hc (sample_page "4" "60") false 1%nat eq_refl)
      as (s0 & s4 & E0 & _ & _ & E4 & H4).
    exists s0, s4. repeat split; assumption.
  - destruct (Hd two_ticks_state two_ticks_state_reachable eq_refl)
      as (s1 & s4 & E1 & H1 & _ & E4 & H4 & P4).
    + vm_compute. split; [discriminate|reflexivity].
    + vm_compute. discriminate.
    + exists s1, s4. repeat split; assumption.
Defined.

(** *** A change of the tempo and the animation *)

Lemma consistent_tempoSel_listener (s : State) :
  consistent s -> consistent (tempoSel_change s).
Proof.
  unfold consistent, phase_in_range, timers_coherent.
  open_state s. run_controller. auto.
Qed.

Lemma consistent_set_tempoSel_value (s : State) (v : string) :
  consistent s -> consistent (set_tempoSel_value s v).
Proof.
  unfold consistent, phase_in_range, timers_coherent.
  open_state s. run_controller. auto.
Qed.

(** A tick inside a phase leaves the label and the animation alone. *)
Lemma tick_keeps_animation (s s' : State) :
  running (vars s) = true ->
  0 < phaseTimeLeft (vars s) ->
  0 < timeLeft (vars s) ->
  tick s = Some s' ->
  circle_transition (dom s') = circle_transition (dom s)
  /\ cue_textContent (dom s') = cue_textContent (dom s)
  /\ circle_transform (dom s') = circle_transform (dom s).
Proof.
  intros Hrun Hp Hl. open_state s. subst. run_controller.
  destruct (Z.leb_spec phaseTimeLeft0 0); [lia|].
  destruct (Z.leb_spec timeLeft0 0); [lia|].
  intros Etick. injection Etick as <-. run_controller. repeat split.
Qed.

(** The tick of a phase change writes the transition of the circle from
    the tempo of that moment. *)
Lemma tick_writes_transition (s s' : State) :
  running (vars s) = true ->
  phaseTimeLeft (vars s) <= 0 ->
  tick s = Some s' ->
  circle_transition (dom s')
  = if prefersReduced (vars s) then "none"
    else "transform " ++ JS.toString (tempo (vars s)) ++ "s ease-in-out".
Proof.
  intros Hrun Hp. open_state s. subst. run_controller.
  destruct (Z.leb_spec phaseTimeLeft0 0); [|lia].
  match goal with
  | |- context [phases_at ?p] =>
      destruct (phases_at p) as [ph|]; [|discriminate]
  end.
  destruct prefersReduced0; destruct (timeLeft0 <=? 0);
    intros Etick; injection Etick as <-; reflexivity.
Qed.

Lemma ticks_within_phase_animation (k : nat) :
  forall s,
    consistent s -> running (vars s) = true ->
    Z.of_nat k <= phaseTimeLeft (vars s) ->
    Z.of_nat k <= timeLeft (vars s) ->
    exists s',
      ticks k s = Some s'
      /\ consistent s'
      /\ running (vars s') = true
      /\ prefersReduced (vars s') = prefersReduced (vars s)
      /\ tempo (vars s') = tempo (vars s)
      /\ phaseIdx (vars s') = phaseIdx (vars s)
      /\ phaseTimeLeft (vars s') = phaseTimeLeft (vars s) - Z.of_nat k
      /\ timeLeft (vars s') = timeLeft (vars s) - Z.of_nat k
      /\ circle_transition (dom s') = circle_transition (dom s)
      /\ cue_textContent (dom s') = cue_textContent (dom s)
      /\ circle_transform (dom s') = circle_transform (dom s).
Proof.
  induction k as [|k IH]; intros s Hc Hrun Hk Hl; cbn [ticks].
  - exists s. split; [reflexivity|]. split; [exact Hc|].
    split; [exact Hrun|]. repeat split; lia.
  - destruct (tick_running s Hrun (proj1 Hc))
      as (s1 & E & Hred & Htempo & _ & _ & _ & _ & _ & Hidx & Hcase).
    destruct (tick_keeps_animation s s1 Hrun ltac:(lia) ltac:(lia) E)
      as (Ha1 & Ha2 & Ha3).
    rewrite E.
    destruct (Z.leb_spec (phaseTimeLeft (vars s)) 0); [lia|].
    destruct (Z.leb_spec (timeLeft (vars s)) 0); [lia|].
    destruct Hcase as (Hrun1 & Htl1 & Hp1 & _).
    destruct (IH s1)
      as (s' & E' & Hc' & Hrun' & Hred' & Ht' & Hidx' & Hp' & Hl'
          & Hb1 & Hb2 & Hb3);
      [eapply consistent_tick; eassumption | exact Hrun1 | lia | lia |].
    exists s'. split; [exact E'|]. split; [exact Hc'|].
    split; [exact Hrun'|]. split; [congruence|]. split; [congruence|].
    split; [congruence|]. split; [lia|]. split; [lia|].
    split; [congruence|]. split; congruence.
Qed.

(** C4, amended. The listener of the tempo control sets [tempo] to the
    value read from the control (4 when it is NaN or 0) and sets the time
    left in the current phase to that same value at once; the phase index,
    the time left in the session, the running flag, the intervals and the
    whole page (label, transition and scale of the circle) stay as they
    are.  The animation follows at the next phase change: on a running
    timer with a new tempo [t > 0] and more than [t] seconds left, each of
    the next [t] ticks leaves the phase index, the label, the scale and the
    transition as they were before the change, and the tick after them
    moves to the next phase and writes the transition from the new tempo,
    [transform <t>s ease-in-out], or "none" with reduced motion. *)
Theorem tempo_change_restarts_phase (s : State) :
  let s' := tempoSel_change s in
  tempo (vars s') = JS.or_default (JS.parseInt (tempoSel_value (dom s))) 4
  /\ phaseTimeLeft (vars s') = tempo (vars s')
  /\ phaseIdx (vars s') = phaseIdx (vars s)
  /\ timeLeft (vars s') = timeLeft (vars s)
  /\ total (vars s') = total (vars s)
  /\ running (vars s') = running (vars s)
  /\ interval (vars s') = interval (vars s)
  /\ timers s' = timers s
  /\ dom s' = dom s
  /\ (consistent s ->
      running (vars s) = true ->
      0 < tempo (vars s') ->
      tempo (vars s') < timeLeft (vars s) ->
      (forall k, (k <= Z.to_nat (tempo (vars s')))%nat ->
         exists sk,
           ticks k s' = Some sk
           /\ phaseIdx (vars sk) = phaseIdx (vars s)
           /\ phaseTimeLeft (vars sk) = tempo (vars s') - Z.of_nat k
           /\ circle_transition (dom sk) = circle_transition (dom s)
           /\ cue_textContent (dom sk) = cue_textContent (dom s)
           /\ circle_transform (dom sk) = circle_transform (dom s))
      /\ exists s2 s3,
           ticks (Z.to_nat (tempo (vars s'))) s' = Some s2
           /\ tick s2 = Some s3
           /\ phaseIdx (vars s3) = (phaseIdx (vars s) + 1) mod 4
           /\ circle_transition (dom s3)
              = if prefersReduced (vars s) then "none"
                else "transform " ++ JS.toString (tempo (vars s'))
                     ++ "s ease-in-out").
Proof.
  assert (Hnow :
    tempo (vars (tempoSel_change s))
    = JS.or_default (JS.parseInt (tempoSel_value (dom s))) 4
    /\ phaseTimeLeft (vars (tempoSel_change s))
       = tempo (vars (tempoSel_change s))
    /\ phaseIdx (vars (tempoSel_change s)) = phaseIdx (vars s)
    /\ timeLeft (vars (tempoSel_change s)) = timeLeft (vars s)
    /\ total (vars (tempoSel_change s)) = total (vars s)
    /\ running (vars (tempoSel_change s)) = running (vars s)
    /\ interval (vars (tempoSel_change s)) = interval (vars s)
    /\ timers (tempoSel_change s) = timers s
    /\ dom (tempoSel_change s) = dom s
    /\ prefersReduced (vars (tempoSel_change s)) = prefersReduced (vars s)).
  { open_state s. run_controller. repeat split; reflexivity. }
  destruct Hnow as (H1 & H2 & H3 & H4 & H5 & H6 & H7 & H8 & H9 & H10).
  cbv zeta.
  split; [exact H1|]. split; [exact H2|]. split; [exact H3|].
  split; [exact H4|]. split; [exact H5|]. split; [exact H6|].
  split; [exact H7|]. split; [exact H8|]. split; [exact H9|].
  intros Hc Hrun Ht Hl.
  pose proof (consistent_tempoSel_listener s Hc) as Hc'.
  assert (Hrun' : running (vars (tempoSel_change s)) = true) by congruence.
  split.
  - intros k Hk.
    destruct (ticks_within_phase_animation k (tempoSel_change s) Hc' Hrun')
      as (sk & Ek & _ & _ & _ & _ & Hi & Hp & _ & Ha1 & Ha2 & Ha3);
      [lia | lia |].
    exists sk. split; [exact Ek|]. split; [congruence|].
    split; [lia|]. rewrite H9 in Ha1, Ha2, Ha3. auto.
  - destruct (ticks_within_phase_animation
                (Z.to_nat (tempo (vars (tempoSel_change s))))
                (tempoSel_change s) Hc' Hrun')
      as (s2 & E2 & Hc2 & Hr2 & Hred2 & Ht2 & Hi2 & Hp2 & Hl2 & _);
      [lia | lia |].
    destruct (tick_phase_change s2 Hc2 Hr2)
      as (s3 & E3 & _ & _ & _ & Hi3 & _); [lia | lia |].
    exists s2, s3. split; [exact E2|]. split; [exact E3|].
    split.
    + rewrite Hi3, Hi2, H3. apply next_phase_mod.
      destruct Hc as [Hc _]. unfold phase_in_range in Hc. lia.
    + rewrite (tick_writes_transition s2 s3 Hr2 ltac:(lia) E3).
      rewrite Hred2, H10, Ht2. reflexivity.
Qed.

Lemma tempo_6_chosen_consistent : consistent tempo_6_chosen.
Proof.
  apply consistent_set_tempoSel_value, reachable_consistent,
    two_ticks_state_reachable.
Qed.

Lemma tempo_6_chosen_facts :
  running (vars tempo_6_chosen) = true
  /\ tempo (vars (tempoSel_change tempo_6_chosen)) = 6
  /\ timeLeft (vars tempo_6_chosen) = 58
  /\ prefersReduced (vars tempo_6_chosen) = false
  /\ circle_transition (dom tempo_6_chosen) = "transform 4s ease-in-out".
Proof. vm_compute. repeat split; reflexivity. Qed.

Lemma tempo_change_restarts_phase_witness :
  phaseTimeLeft (vars (tempoSel_change tempo_6_chosen)) = 6
  /\ (exists s5,
        ticks 5 (tempoSel_change tempo_6_chosen) = Some s5
        /\ phaseIdx (vars s5) = phaseIdx (vars tempo_6_chosen)
        /\ circle_transition (dom s5) = "transform 4s ease-in-out")
  /\ exists s2 s3,
       ticks 6 (tempoSel_change tempo_6_chosen) = Some s2
       /\ tick s2 = Some s3
       /\ circle_transition (dom s3) = "transform 6s ease-in-out".
Proof.
  destruct tempo_6_chosen_facts as (Fr & Ft & Fl & Fp & Fc).
  destruct (tempo_change_restarts_phase tempo_6_chosen)
    as (_ & H2 & _ & _ & _ & _ & _ & _ & _ & H).
  split; [rewrite H2; exact Ft|].
  destruct (H tempo_6_chosen_consistent Fr) as (Hk & s2 & s3 & E2 & E3 & _ & T);
    [rewrite Ft; lia | rewrite Ft, Fl; lia |].
  rewrite Ft in *. rewrite Fp in T.
  split.
  - destruct (Hk 5%nat ltac:(simpl; lia)) as (s5 & E5 & Hi & _ & Ha & _).
    exists s5. split; [exact E5|]. split; [exact Hi|].
    rewrite Ha. exact Fc.
  - exists s2, s3. split; [exact E2|]. split; [exact E3|]. exact T.
Defined.

End Controller.

(** ** More on the controller: the view, the bounds and whole sessions *)

Section Session.
Import Practice PracticeView.

Ltac run_timer :=
  cbv [practiceController declarations reset pause start tick
       tempoSel_change durSel_change stop updateTime setPhase
       applyTransitionDuration handle
       set_total set_tempo set_phaseIdx set_phaseTimeLeft
       set_timeLeft set_running set_interval set_tempoSel_value
       set_durSel_value set_cue_textContent set_circle_transition
       set_circle_transform set_timeLeftEl_textContent
       set_startBtn_disabled set_pauseBtn_disabled set_resetBtn_disabled
       with_vars with_dom with_timers
       vars dom timers prefersReduced total tempo phaseIdx phaseTimeLeft
       timeLeft running interval tempoSel_value durSel_value
       cue_textContent circle_transition circle_transform
       timeLeftEl_textContent startBtn_disabled pauseBtn_disabled
       resetBtn_disabled key label scale negb
       kept view_consistent shown_phase within_bounds
       Timers.setInterval Timers.next_handle Timers.active] in *.

Ltac open_timer s :=
  let v := fresh "v" in
  let d := fresh "d" in
  let tb := fresh "tb" in
  destruct s as [v d tb]; destruct v, d, tb; cbn [vars dom timers
    prefersReduced total tempo phaseIdx phaseTimeLeft timeLeft running
    interval Timers.active Timers.next_handle] in *.

(** *** The view and the bounds are kept by every function *)

Lemma kept_reset (s : State) : kept (reset s).
Proof.
  unfold kept. open_timer s. run_timer.
  repeat split; try reflexivity; try discriminate; lia.
Qed.

Lemma kept_pause (s : State) : kept s -> kept (pause s).
Proof.
  unfold kept. open_timer s. run_timer.
  destruct running0; run_timer; [|tauto].
  intros ((_ & _ & Ht & _) & Hb).
  repeat split; try reflexivity; try discriminate; try tauto.
Qed.

Lemma kept_start (s s' : State) : kept s -> start s = Some s' -> kept s'.
Proof.
  unfold kept. open_timer s. run_timer.
  destruct running0; run_timer.
  - intros H E. injection E as <-. exact H.
  - intros ((_ & _ & Ht & _) & Hb) E.
    destruct (phases_at phaseIdx0) as [ph|] eqn:Hph; [|discriminate].
    destruct prefersReduced0; injection E as <-; run_timer;
      (split; [|exact Hb]);
      (repeat split; try reflexivity);
      intros _; exists ph; repeat split; auto; discriminate.
Qed.

Lemma kept_tempoSel_change (s : State) :
  kept s -> kept (tempoSel_change s).
Proof.
  unfold kept. open_timer s. run_timer.
  intros ((H1 & H2 & H3 & H4) & (Hb & _)).
  repeat split; auto; lia.
Qed.

Lemma kept_durSel_change (s : State) :
  kept s -> kept (durSel_change s).
Proof.
  unfold kept. open_timer s. run_timer. unfold JS.Math_min.
  intros ((H1 & H2 & H3 & H4) & (Hb & Hp)).
  repeat split; auto; lia.
Qed.

Lemma kept_set_value (s : State) (v : string) :
  kept s -> kept (set_tempoSel_value s v) /\ kept (set_durSel_value s v).
Proof.
  unfold kept. open_timer s. run_timer. tauto.
Qed.

Lemma kept_tick (s s' : State) : kept s -> tick s = Some s' -> kept s'.
Proof.
  unfold kept. open_timer s. run_timer.
  destruct running0; run_timer;
    [|intros H E; injection E as <-; exact H].
  intros ((H1 & H2 & H3 & H4) & (Hb & Hp)) E.
  specialize (H4 eq_refl). destruct H4 as (ph0 & Hph0 & Hc0 & Hs0 & Hr0).
  destruct (Z.leb_spec phaseTimeLeft0 0).
  - match type of E with
    | context [phases_at ?p] =>
        destruct (phases_at p) as [ph|] eqn:Hph; [|discriminate]
    end.
    destruct prefersReduced0; destruct (Z.leb_spec timeLeft0 0);
      injection E as <-; run_timer;
      repeat split; auto; try discriminate; try lia;
      intros _; exists ph; repeat split; auto; discriminate.
  - destruct (Z.leb_spec timeLeft0 0);
      injection E as <-; run_timer;
      repeat split; auto; try discriminate; try lia;
      intros _; exists ph0; repeat split; auto.
Qed.

Lemma kept_handle (e : event) (s s' : State) :
  kept s -> handle e s = Some s' -> kept s'.
Proof.
  intros Hk H. destruct e; cbn [handle] in H.
  - eapply kept_start; eassumption.
  - injection H as <-. now apply kept_pause.
  - injection H as <-. apply kept_reset.
  - injection H as <-. apply kept_tempoSel_change, kept_set_value, Hk.
  - injection H as <-. apply kept_durSel_change, kept_set_value, Hk.
  - destruct (Timers.is_active h (timers s)).
    + eapply kept_tick; eassumption.
    + injection H as <-. exact Hk.
Qed.

Lemma reachable_kept (s : State) : reachable s -> kept s.
Proof.
  induction 1 as [page reduced n | s e s' _ IH H].
  - apply kept_reset.
  - eapply kept_handle; eassumption.
Qed.

(** *** Reachable sample states *)

Lemma paused_state_reachable : reachable paused_state.
Proof.
  apply (reach_event two_ticks_state click_pause);
    [apply two_ticks_state_reachable|reflexivity].
Qed.

Lemma negative_tempo_state_reachable : reachable negative_tempo_state.
Proof.
  apply (reach_event (practiceController (sample_page "-3" "60") false 1)
           click_start); [apply reach_load|].
  vm_compute. reflexivity.
Qed.

Lemma complete_state_reachable : reachable complete_state.
Proof.
  assert (H : exists s0,
             start (practiceController (sample_page "4" "8") false 1)
             = Some s0 /\ ticks 9 s0 = Some complete_state).
  { eexists. split; [vm_compute; reflexivity|].
    vm_compute. reflexivity. }
  destruct H as (s0 & E0 & E9).
  eapply reachable_ticks; [|exact E9].
  apply (reach_event (practiceController (sample_page "4" "8") false 1)
           click_start); [apply reach_load|exact E0].
Qed.

(** *** The view *)

(** X1. The start button is disabled exactly while the timer runs and the
    pause button exactly while it does not. *)
Theorem buttons_follow_running (s : State) :
  reachable s ->
  startBtn_disabled (dom s) = running (vars s)
  /\ pauseBtn_disabled (dom s) = negb (running (vars s)).
Proof.
  intros Hr. destruct (reachable_kept s Hr) as ((H1 & H2 & _) & _).
  split; assumption.
Qed.

Lemma buttons_follow_running_witness :
  startBtn_disabled (dom started_state) = true
  /\ pauseBtn_disabled (dom started_state) = false
  /\ startBtn_disabled (dom paused_state) = false
  /\ pauseBtn_disabled (dom paused_state) = true.
Proof.
  destruct (buttons_follow_running started_state started_state_reachable)
    as [H1 H2].
  destruct (buttons_follow_running paused_state paused_state_reachable)
    as [H3 H4].
  repeat split; assumption.
Defined.

(** X2. The time on the page is always [fmt] of the time left. *)
Theorem display_shows_timeLeft (s : State) :
  reachable s ->
  timeLeftEl_textContent (dom s) = fmt (timeLeft (vars s)).
Proof.
  intros Hr. destruct (reachable_kept s Hr) as ((_ & _ & H & _) & _).
  exact H.
Qed.

Lemma display_shows_timeLeft_witness :
  timeLeftEl_textContent (dom two_ticks_state) = "00:58".
Proof.
  exact (display_shows_timeLeft two_ticks_state two_ticks_state_reachable).
Defined.

(** X3. While the timer runs, the label and the scale of the circle are those
    of the current phase, and with reduced motion the transition is
    "none". *)
Theorem running_shows_current_phase (s : State) :
  reachable s ->
  running (vars s) = true ->
  exists ph,
    phases_at (phaseIdx (vars s)) = Some ph
    /\ cue_textContent (dom s) = label ph
    /\ circle_transform (dom s) = "scale(" ++ scale ph ++ ")"
    /\ (prefersReduced (vars s) = true -> circle_transition (dom s) = "none").
Proof.
  intros Hr Hrun. destruct (reachable_kept s Hr) as ((_ & _ & _ & H) & _).
  exact (H Hrun).
Qed.

Lemma running_shows_current_phase_witness :
  exists ph,
    phases_at (phaseIdx (vars two_ticks_state)) = Some ph
    /\ cue_textContent (dom two_ticks_state) = label ph
    /\ circle_transform (dom two_ticks_state) = "scale(" ++ scale ph ++ ")".
Proof.
  destruct (running_shows_current_phase two_ticks_state
              two_ticks_state_reachable eq_refl) as (ph & H1 & H2 & H3 & _).
  exists ph. repeat split; assumption.
Defined.

(** *** The bounds *)

(** X4. The time left never exceeds the total and the time left in the phase
    never exceeds the tempo; with a positive tempo the time left in the
    phase is not negative. *)
Theorem counters_within_bounds (s : State) :
  reachable s ->
  timeLeft (vars s) <= total (vars s)
  /\ phaseTimeLeft (vars s) <= tempo (vars s)
  /\ (0 < tempo (vars s) -> 0 <= phaseTimeLeft (vars s)).
Proof.
  intros Hr. destruct (reachable_kept s Hr) as (_ & (H1 & H2)).
  repeat split; lia.
Qed.

Lemma counters_within_bounds_witness :
  timeLeft (vars two_ticks_state) <= total (vars two_ticks_state)
  /\ phaseTimeLeft (vars two_ticks_state) <= tempo (vars two_ticks_state)
  /\ 0 <= phaseTimeLeft (vars two_ticks_state).
Proof.
  destruct (counters_within_bounds two_ticks_state two_ticks_state_reachable)
    as (H1 & H2 & H3).
  split; [exact H1|]. split; [exact H2|]. apply H3. reflexivity.
Defined.

(** X5. No event but a click on reset makes the time left larger: a longer
    duration chosen during a session adds no time. *)
Theorem timeLeft_never_grows (e : event) (s s' : State) :
  e <> click_reset ->
  handle e s = Some s' ->
  timeLeft (vars s') <= timeLeft (vars s).
Proof.
  intros He H. destruct e; cbn [handle] in H; try congruence.
  - destruct (start_vars _ _ H) as (_ & _ & _ & Ht & _). lia.
  - injection H as <-. open_timer s. run_timer.
    destruct running0; run_timer; lia.
  - injection H as <-. open_timer s. run_timer. lia.
  - injection H as <-. open_timer s. run_timer. unfold JS.Math_min. lia.
  - destruct (Timers.is_active h (timers s));
      [|injection H as <-; lia].
    open_timer s. run_timer.
    destruct running0; run_timer; [|injection H as <-; run_timer; lia].
    destruct (Z.leb_spec phaseTimeLeft0 0).
    + match type of H with
      | context [phases_at ?p] =>
          destruct (phases_at p) as [ph|]; [|discriminate]
      end.
      destruct prefersReduced0; destruct (Z.leb_spec timeLeft0 0);
        injection H as <-; run_timer; lia.
    + destruct (Z.leb_spec timeLeft0 0);
        injection H as <-; run_timer; lia.
Qed.

Lemma timeLeft_never_grows_witness :
  timeLeft (vars (durSel_change (set_durSel_value two_ticks_state "300")))
  <= timeLeft (vars two_ticks_state).
Proof.
  apply (timeLeft_never_grows (change_duration "300") two_ticks_state);
    [discriminate|reflexivity].
Defined.

(** X6. With reduced motion no event gives the circle a timed transition: an
    event leaves the transition as it is or sets it to "none". *)
Theorem reduced_motion_never_animates (e : event) (s s' : State) :
  prefersReduced (vars s) = true ->
  handle e s = Some s' ->
  prefersReduced (vars s') = true
  /\ (circle_transition (dom s') = circle_transition (dom s)
      \/ circle_transition (dom s') = "none").
Proof.
  intros Hp H. open_timer s. subst prefersReduced0.
  destruct e; run_timer.
  - destruct running0; run_timer; [injection H as <-; run_timer; auto|].
    destruct (phases_at phaseIdx0); [|discriminate].
    injection H as <-. run_timer. auto.
  - injection H as <-.
    destruct running0; run_timer; auto.
  - injection H as <-. run_timer. auto.
  - injection H as <-. run_timer. auto.
  - injection H as <-. run_timer. auto.
  - destruct (Timers.is_active h _); [|injection H as <-; run_timer; auto].
    destruct running0; run_timer; [|injection H as <-; run_timer; auto].
    destruct (Z.leb_spec phaseTimeLeft0 0).
    + match type of H with
      | context [phases_at ?p] =>
          destruct (phases_at p) as [ph|]; [|discriminate]
      end.
      destruct (Z.leb_spec timeLeft0 0);
        injection H as <-; run_timer; auto.
    + destruct (Z.leb_spec timeLeft0 0);
        injection H as <-; run_timer; auto.
Qed.

Lemma reduced_started_state_eq :
  handle click_start (practiceController (sample_page "4" "60") true 1)
  = Some reduced_started_state.
Proof. vm_compute. reflexivity. Qed.

Lemma reduced_motion_never_animates_witness :
  prefersReduced (vars reduced_started_state) = true
  /\ (circle_transition (dom reduced_started_state)
      = circle_transition
          (dom (practiceController (sample_page "4" "60") true 1))
      \/ circle_transition (dom reduced_started_state) = "none").
Proof.
  apply (reduced_motion_never_animates click_start
           (practiceController (sample_page "4" "60") true 1)
           reduced_started_state);
    [reflexivity|exact reduced_started_state_eq].
Defined.

(** *** Events, pause and reset *)

(** X7. In a reachable state every event is handled without an exception
    ([phases] is never read outside its bounds), and leads to a reachable
    state. *)
Theorem no_event_throws (s : State) (e : event) :
  reachable s ->
  exists s', handle e s = Some s' /\ reachable s'.
Proof.
  intros Hr.
  destruct (handle_defined e s (reachable_consistent s Hr)) as (s' & H).
  exists s'. split; [exact H|]. exact (reach_event s e s' Hr H).
Qed.

Lemma no_event_throws_witness :
  exists s', handle (interval_fires 1) started_state = Some s'
             /\ reachable s'.
Proof.
  exact (no_event_throws started_state (interval_fires 1)
           started_state_reachable).
Defined.

Lemma clearInterval_twice (h : option nat) (tb : Timers.table) :
  Timers.clearInterval h (Timers.clearInterval h tb)
  = Timers.clearInterval h tb.
Proof.
  destruct h as [i|]; [|reflexivity]. destruct tb as [n l].
  unfold Timers.clearInterval. cbn [Timers.next_handle Timers.active].
  f_equal. apply notin_remove, remove_In.
Qed.

(** X8. A second [pause ()] or a second [reset ()] right after the first
    changes nothing, in any state. *)
Theorem pause_and_reset_idempotent (s : State) :
  pause (pause s) = pause s /\ reset (reset s) = reset s.
Proof.
  split.
  - open_timer s. destruct running0; reflexivity.
  - open_timer s. run_timer.
    rewrite clearInterval_twice. reflexivity.
Qed.

(** X9. [pause ()] on a running timer keeps every counter, leaves no interval
    registered, so that no tick reaches the paused timer; [start ()] then
    resumes with the same counters, the same label, scale and time on the
    page, and one interval. *)
Theorem pause_then_start_resumes (s : State) :
  reachable s ->
  running (vars s) = true ->
  running (vars (pause s)) = false
  /\ timeLeft (vars (pause s)) = timeLeft (vars s)
  /\ phaseTimeLeft (vars (pause s)) = phaseTimeLeft (vars s)
  /\ phaseIdx (vars (pause s)) = phaseIdx (vars s)
  /\ Timers.active (timers (pause s)) = []
  /\ (forall h, handle (interval_fires h) (pause s) = Some (pause s))
  /\ exists s',
       start (pause s) = Some s'
       /\ running (vars s') = true
       /\ timeLeft (vars s') = timeLeft (vars s)
       /\ phaseTimeLeft (vars s') = phaseTimeLeft (vars s)
       /\ phaseIdx (vars s') = phaseIdx (vars s)
       /\ tempo (vars s') = tempo (vars s)
       /\ total (vars s') = total (vars s)
       /\ cue_textContent (dom s') = cue_textContent (dom s)
       /\ circle_transform (dom s') = circle_transform (dom s)
       /\ timeLeftEl_textContent (dom s') = timeLeftEl_textContent (dom s)
       /\ List.length (Timers.active (timers s')) = 1%nat.
Proof.
  intros Hr Hrun.
  pose proof (reachable_consistent s Hr) as Hc.
  pose proof (clear_own_interval s (proj2 Hc)) as Hclr.
  destruct (reachable_kept s Hr) as ((_ & _ & Hd & Hsh) & _).
  destruct (Hsh Hrun) as (ph & Hph & Hcue & Hsc & _).
  assert (Hact : Timers.active (timers (pause s)) = []).
  { open_timer s. subst running0. exact Hclr. }
  split; [open_timer s; subst running0; reflexivity|].
  split; [open_timer s; subst running0; reflexivity|].
  split; [open_timer s; subst running0; reflexivity|].
  split; [open_timer s; subst running0; reflexivity|].
  split; [exact Hact|].
  split.
  { intros h. cbn [handle]. unfold Timers.is_active. rewrite Hact.
    reflexivity. }
  clear Hclr Hact. destruct Hc as [_ Hc]. unfold timers_coherent in Hc.
  open_timer s. subst running0. destruct Hc as (h & -> & -> & _).
  run_timer. rewrite Hph.
  cbv [Timers.clearInterval Timers.next_handle Timers.active].
  cbn [remove]. destruct (Nat.eq_dec h h) as [_|N]; [|congruence].
  run_timer.
  destruct prefersReduced0; eexists; (split; [reflexivity|]); run_timer;
    repeat split; auto.
Qed.

Lemma pause_then_start_resumes_witness :
  timeLeft (vars (pause two_ticks_state)) = 58
  /\ phaseTimeLeft (vars (pause two_ticks_state)) = 2
  /\ Timers.active (timers (pause two_ticks_state)) = []
  /\ exists s',
       start (pause two_ticks_state) = Some s'
       /\ running (vars s') = true
       /\ timeLeft (vars s') = 58
       /\ phaseTimeLeft (vars s') = 2.
Proof.
  destruct (pause_then_start_resumes two_ticks_state
              two_ticks_state_reachable eq_refl)
    as (_ & H1 & H2 & _ & H3 & _ & s' & E & Hr & H4 & H5 & _).
  split; [exact H1|]. split; [exact H2|]. split; [exact H3|].
  exists s'. split; [exact E|]. split; [exact Hr|].
  split; [exact H4|exact H5].
Defined.

(** *** Whole sessions *)

Lemma load_then_start (page : Dom) (reduced : bool) (h : nat) :
  exists s0,
    start (practiceController page reduced h) = Some s0
    /\ reachable s0
    /\ running (vars s0) = true
    /\ phaseIdx (vars s0) = 0
    /\ tempo (vars s0)
       = JS.or_default (JS.parseInt (tempoSel_value page)) 4
    /\ phaseTimeLeft (vars s0) = tempo (vars s0)
    /\ total (vars s0)
       = JS.or_default (JS.parseInt (durSel_value page)) 60
    /\ timeLeft (vars s0) = total (vars s0).
Proof.
  pose proof (reach_load page reduced h) as Hr.
  destruct (start_defined _ (proj1 (reachable_consistent _ Hr)))
    as (s0 & E0).
  destruct (start_vars _ _ E0) as (Hrun & Hi & Hp & Hl & Ht & Hd).
  destruct (reset_vars (declarations page reduced h))
    as (Ri & Rt & Rp & Rd & Rl & _).
  fold (practiceController page reduced h) in Ri, Rt, Rp, Rd, Rl.
  change (tempoSel_value (dom (declarations page reduced h)))
    with (tempoSel_value page) in Rt.
  change (durSel_value (dom (declarations page reduced h)))
    with (durSel_value page) in Rd.
  exists s0. split; [exact E0|].
  split; [exact (reach_event _ click_start _ Hr E0)|].
  split; [exact Hrun|]. repeat split; congruence.
Qed.

(** X10. A session of [d] seconds, whatever the tempo: [start ()] on the loaded
    page and [d] ticks bring the time left to 0 with the timer still
    running; the next tick ends the session: the timer is stopped, no
    interval is registered, the label reads "Complete", the circle is at
    [scale(1)], the page shows "00:00", the start button is enabled and the
    pause button disabled; further ticks change nothing. *)
Theorem session_completes (page : Dom) (reduced : bool) (h : nat) (d : Z) :
  JS.parseInt (durSel_value page) = Some d ->
  0 < d ->
  exists s0 sd s',
    start (practiceController page reduced h) = Some s0
    /\ ticks (Z.to_nat d) s0 = Some sd
    /\ running (vars sd) = true
    /\ timeLeft (vars sd) = 0
    /\ tick sd = Some s'
    /\ running (vars s') = false
    /\ timeLeft (vars s') = 0
    /\ Timers.active (timers s') = []
    /\ cue_textContent (dom s') = "Complete"
    /\ circle_transform (dom s') = "scale(1)"
    /\ timeLeftEl_textContent (dom s') = "00:00"
    /\ startBtn_disabled (dom s') = false
    /\ pauseBtn_disabled (dom s') = true
    /\ (forall k, ticks k s' = Some s').
Proof.
  intros Pd Hd.
  destruct (load_then_start page reduced h)
    as (s0 & E0 & Hr0 & Hrun0 & _ & _ & _ & Htot & Hl0).
  rewrite Pd, or_default_nonzero in Htot by lia.
  destruct (ticks_running (Z.to_nat d) s0 (reachable_consistent _ Hr0) Hrun0)
    as (sd & Ed & Hcd & Hrund & Hld & _); [lia|].
  destruct (tick_at_zero sd Hcd Hrund)
    as (s' & E' & _ & Hrun' & Hl' & Ha' & Hcue & Hsc); [lia|].
  assert (Hr' : reachable s').
  { eapply reachable_tick; [|exact E'].
    eapply reachable_ticks; [exact Hr0|exact Ed]. }
  destruct (reachable_kept s' Hr') as ((Hb1 & Hb2 & Hdisp & _) & _).
  assert (Hz : timeLeft (vars s') = 0) by lia.
  exists s0, sd, s'.
  split; [exact E0|]. split; [exact Ed|]. split; [exact Hrund|].
  split; [lia|]. split; [exact E'|]. split; [exact Hrun'|].
  split; [exact Hz|]. split; [exact Ha'|]. split; [exact Hcue|].
  split; [exact Hsc|].
  split; [rewrite Hdisp, Hz; reflexivity|].
  split; [rewrite Hb1; exact Hrun'|].
  split; [rewrite Hb2, Hrun'; reflexivity|].
  intros k. apply ticks_not_running, Hrun'.
Qed.

Lemma session_completes_witness :
  exists s0 sd s',
    start (practiceController (sample_page "6" "120") false 1) = Some s0
    /\ ticks 120 s0 = Some sd
    /\ tick sd = Some s'
    /\ cue_textContent (dom s') = "Complete"
    /\ timeLeftEl_textContent (dom s') = "00:00".
Proof.
  destruct (session_completes (sample_page "6" "120") false 1 120
              eq_refl ltac:(lia))
    as (s0 & sd & s' & E0 & Ed & _ & _ & E' & _ & _ & _ & Hc & _ & Hd & _).
  exists s0, sd, s'. repeat split; assumption.
Defined.

(** X11. [start ()] on a stopped timer with no time left runs it for one tick
    only: that tick ends the session again and gives no time back. *)
Theorem start_after_complete (s : State) :
  reachable s ->
  running (vars s) = false ->
  timeLeft (vars s) <= 0 ->
  exists s1 s2,
    start s = Some s1
    /\ running (vars s1) = true
    /\ tick s1 = Some s2
    /\ running (vars s2) = false
    /\ timeLeft (vars s2) = timeLeft (vars s)
    /\ cue_textContent (dom s2) = "Complete"
    /\ Timers.active (timers s2) = [].
Proof.
  intros Hr Hrun Hl.
  pose proof (reachable_consistent s Hr) as Hc.
  destruct (start_defined s (proj1 Hc)) as (s1 & E1).
  destruct (start_vars _ _ E1) as (Hrun1 & _ & _ & Hl1 & _).
  destruct (tick_at_zero s1 (consistent_start _ _ Hc E1) Hrun1)
    as (s2 & E2 & _ & Hrun2 & Hl2 & Ha2 & Hcue & _); [lia|].
  exists s1, s2. repeat split; try assumption. lia.
Qed.

Lemma start_after_complete_witness :
  exists s1 s2,
    start complete_state = Some s1
    /\ tick s1 = Some s2
    /\ timeLeft (vars s2) = 0
    /\ cue_textContent (dom s2) = "Complete".
Proof.
  destruct (start_after_complete complete_state complete_state_reachable
              eq_refl ltac:(vm_compute; discriminate))
    as (s1 & s2 & E1 & _ & E2 & _ & Hl & Hc & _).
  exists s1, s2. repeat split; assumption.
Defined.

(** X12. With a negative tempo every tick of the running timer is a phase
    change. *)
Theorem negative_tempo_changes_phase_every_tick (s : State) :
  reachable s ->
  running (vars s) = true ->
  tempo (vars s) < 0 ->
  0 < timeLeft (vars s) ->
  exists s',
    tick s = Some s'
    /\ phaseIdx (vars s') = (phaseIdx (vars s) + 1) mod 4
    /\ phaseTimeLeft (vars s') = tempo (vars s) - 1
    /\ tempo (vars s') = tempo (vars s)
    /\ running (vars s') = true.
Proof.
  intros Hr Hrun Ht Hl.
  pose proof (reachable_consistent s Hr) as Hc.
  destruct (reachable_kept s Hr) as (_ & (_ & Hp)).
  destruct (tick_phase_change s Hc Hrun)
    as (s' & E & _ & Hrun' & Ht' & Hi' & Hp' & _); [lia | lia |].
  exists s'. repeat split; try assumption.
  rewrite Hi'. apply next_phase_mod.
  destruct Hc as [Hc _]. unfold phase_in_range in Hc. lia.
Qed.

Lemma negative_tempo_changes_phase_every_tick_witness :
  exists s',
    tick negative_tempo_state = Some s'
    /\ phaseIdx (vars s') = 1
    /\ phaseTimeLeft (vars s') = -4.
Proof.
  destruct (negative_tempo_changes_phase_every_tick negative_tempo_state
              negative_tempo_state_reachable eq_refl
              ltac:(vm_compute; reflexivity) ltac:(vm_compute; reflexivity))
    as (s' & E & Hi & Hp & _).
  exists s'. repeat split; assumption.
Defined.

(** *** A change of the tempo during a phase *)

Lemma tempoSel_change_vars (s : State) (v : string) (t : Z) :
  JS.parseInt v = Some t -> t <> 0 ->
  let s1 := tempoSel_change (set_tempoSel_value s v) in
  tempo (vars s1) = t
  /\ phaseTimeLeft (vars s1) = t
  /\ phaseIdx (vars s1) = phaseIdx (vars s)
  /\ timeLeft (vars s1) = timeLeft (vars s)
  /\ running (vars s1) = running (vars s).
Proof.
  intros Pv Ht. open_timer s. run_timer.
  rewrite Pv, or_default_nonzero by exact Ht. repeat split.
Qed.

(** X13. After the tempo control changes to [t > 0] while the timer runs (with
    more than [t] seconds left), the current phase lasts [t] more ticks,
    however far it had got: the phase index is unchanged after [t] ticks
    and moves to the next phase on the tick after them. *)
Theorem phase_restarts_at_new_tempo (s : State) (v : string) (t : Z) :
  reachable s ->
  running (vars s) = true ->
  JS.parseInt v = Some t ->
  0 < t ->
  t < timeLeft (vars s) ->
  exists s2 s3,
    ticks (Z.to_nat t) (tempoSel_change (set_tempoSel_value s v)) = Some s2
    /\ phaseIdx (vars s2) = phaseIdx (vars s)
    /\ phaseTimeLeft (vars s2) = 0
    /\ tick s2 = Some s3
    /\ phaseIdx (vars s3) = (phaseIdx (vars s) + 1) mod 4
    /\ phaseTimeLeft (vars s3) = t - 1.
Proof.
  intros Hr Hrun Pv Ht Hl.
  pose proof (reachable_consistent s Hr) as Hc.
  destruct (tempoSel_change_vars s v t Pv ltac:(lia))
    as (Ht1 & Hp1 & Hi1 & Hl1 & Hr1).
  pose proof (consistent_tempoSel_change s v Hc) as Hc1.
  destruct (ticks_within_phase (Z.to_nat t)
              (tempoSel_change (set_tempoSel_value s v)) Hc1)
    as (s2 & E2 & Hc2 & Hr2 & Ht2 & Hi2 & Hp2 & Hl2);
    [congruence | lia | lia |].
  destruct (tick_phase_change s2 Hc2 Hr2)
    as (s3 & E3 & _ & _ & _ & Hi3 & Hp3 & _); [lia | lia |].
  exists s2, s3. split; [exact E2|]. split; [congruence|].
  split; [lia|]. split; [exact E3|]. split.
  - rewrite Hi3, Hi2, Hi1. apply next_phase_mod.
    destruct Hc as [Hc _]. unfold phase_in_range in Hc. lia.
  - lia.
Qed.

Lemma phase_restarts_at_new_tempo_witness :
  exists s2 s3,
    ticks 6 (tempoSel_change (set_tempoSel_value two_ticks_state "6"))
    = Some s2
    /\ phaseIdx (vars s2) = 0
    /\ tick s2 = Some s3
    /\ phaseIdx (vars s3) = 1.
Proof.
  destruct (phase_restarts_at_new_tempo two_ticks_state "6" 6
              two_ticks_state_reachable eq_refl eq_refl ltac:(lia)
              ltac:(vm_compute; reflexivity))
    as (s2 & s3 & E2 & H2 & _ & E3 & H3 & _).
  exists s2, s3. repeat split; assumption.
Defined.

(** *** The phase shown at each second *)

(** From the start of a phase, [S n] ticks of a running timer with tempo
    [t]: [n] splits into [q] whole phases and [r] seconds. *)
Lemma ticks_from_phase_start (t : Z) (n : nat) :
  0 < t ->
  forall s0,
    consistent s0 -> running (vars s0) = true ->
    tempo (vars s0) = t -> phaseTimeLeft (vars s0) = t ->
    Z.of_nat (S n) <= timeLeft (vars s0) ->
    exists s' q r,
      ticks (S n) s0 = Some s'
      /\ consistent s'
      /\ running (vars s') = true
      /\ tempo (vars s') = t
      /\ timeLeft (vars s') = timeLeft (vars s0) - Z.of_nat (S n)
      /\ Z.of_nat n = t * q + r /\ 0 <= q /\ 0 <= r < t
      /\ phaseTimeLeft (vars s') = t - 1 - r
      /\ phaseIdx (vars s') = (phaseIdx (vars s0) + q) mod 4.
Proof.
  intros Ht. induction n as [|n IH]; intros s0 Hc Hrun Htempo Hp Hl.
  - destruct (ticks_within_phase 1 s0 Hc Hrun)
      as (s' & E & Hc' & Hr' & Ht' & Hi' & Hp' & Hl'); [lia | lia |].
    exists s', 0, 0. split; [exact E|]. split; [exact Hc'|].
    split; [exact Hr'|]. split; [congruence|]. split; [exact Hl'|].
    split; [simpl; lia|]. split; [lia|]. split; [lia|].
    split; [simpl in Hp'; lia|].
    rewrite Hi', Z.add_0_r. symmetry. apply Z.mod_small.
    destruct Hc as [Hc _]. exact Hc.
  - destruct (IH s0 Hc Hrun Htempo Hp)
      as (s1 & q & r & E1 & Hc1 & Hr1 & Ht1 & Hl1 & Hn & Hq & Hr & Hp1 & Hi1);
      [lia|].
    replace (S (S n)) with (S n + 1)%nat by lia.
    rewrite ticks_add, E1. cbn [ticks].
    destruct (Z.eq_dec r (t - 1)) as [Hlast|Hmid].
    + destruct (tick_phase_change s1 Hc1 Hr1)
        as (s' & E & Hc' & Hr' & Ht' & Hi' & Hp' & Hl'); [lia | lia |].
      rewrite E. exists s', (q + 1), 0.
      split; [reflexivity|]. split; [exact Hc'|]. split; [exact Hr'|].
      split; [congruence|]. split; [lia|]. split; [lia|]. split; [lia|].
      split; [lia|]. split; [lia|].
      rewrite Hi', Hi1, next_phase_mod
        by (apply Z.mod_pos_bound; lia).
      rewrite Z.add_mod_idemp_l by lia. f_equal. lia.
    + destruct (ticks_within_phase 1 s1 Hc1 Hr1)
        as (s' & E & Hc' & Hr' & Ht' & Hi' & Hp' & Hl');
        [simpl; lia | simpl; lia |].
      cbn [ticks] in E. destruct (tick s1) as [s2|]; [|discriminate].
      injection E as ->.
      exists s', q, (r + 1).
      split; [reflexivity|]. split; [exact Hc'|]. split; [exact Hr'|].
      split; [congruence|]. split; [simpl in Hl'; lia|]. split; [lia|].
      split; [lia|]. split; [lia|]. split; [simpl in Hp'; lia|].
      congruence.
Qed.

(** X14. From the loaded page with tempo [t > 0] and duration [d], after
    [start ()] and [n + 1] ticks (at most [d]) the phase index is
    [(n / t) mod 4], the time left in the phase is [t - 1 - n mod t], the
    time left is [d - (n + 1)], and the label is the label of that phase:
    the label changes on the ticks [t + 1], [2 t + 1], ... *)
Theorem phase_after_ticks (page : Dom) (reduced : bool) (h : nat)
  (t d : Z) (n : nat) :
  JS.parseInt (tempoSel_value page) = Some t ->
  JS.parseInt (durSel_value page) = Some d ->
  0 < t ->
  Z.of_nat (S n) <= d ->
  exists s0 s' ph,
    start (practiceController page reduced h) = Some s0
    /\ ticks (S n) s0 = Some s'
    /\ phaseIdx (vars s') = (Z.of_nat n / t) mod 4
    /\ phaseTimeLeft (vars s') = t - 1 - Z.of_nat n mod t
    /\ timeLeft (vars s') = d - Z.of_nat (S n)
    /\ phases_at ((Z.of_nat n / t) mod 4) = Some ph
    /\ cue_textContent (dom s') = label ph.
Proof.
  intros Pt Pd Ht Hn.
  destruct (load_then_start page reduced h)
    as (s0 & E0 & Hr0 & Hrun0 & Hi0 & Htempo & Hp0 & Htot & Hl0).
  rewrite Pt, or_default_nonzero in Htempo by lia.
  rewrite Pd, or_default_nonzero in Htot by lia.
  destruct (ticks_from_phase_start t n Ht s0 (reachable_consistent _ Hr0)
              Hrun0 Htempo)
    as (s' & q & r & E & Hc' & Hr' & Ht' & Hl' & Hdiv & Hq & Hr & Hp' & Hi');
    [congruence | lia |].
  assert (Eq : q = Z.of_nat n / t)
    by (apply (Z.div_unique_pos _ _ q r); assumption).
  assert (Er : r = Z.of_nat n mod t)
    by (apply (Z.mod_unique_pos _ _ q r); assumption).
  assert (Hreach : reachable s')
    by (eapply reachable_ticks; [exact Hr0|exact E]).
  destruct (reachable_kept s' Hreach) as ((_ & _ & _ & Hsh) & _).
  destruct (Hsh Hr') as (ph & Hph & Hcue & _).
  rewrite Hi0, Z.add_0_l, Eq in Hi'.
  exists s0, s', ph.
  split; [exact E0|]. split; [exact E|]. split; [exact Hi'|].
  split; [lia|]. split; [lia|].
  split; [rewrite <- Hi'; exact Hph|exact Hcue].
Qed.

Lemma phase_after_ticks_witness :
  exists s0 s' ph,
    start (practiceController (sample_page "4" "60") false 1) = Some s0
    /\ ticks 10 s0 = Some s'
    /\ phaseIdx (vars s') = 2
    /\ phaseTimeLeft (vars s') = 2
    /\ timeLeft (vars s') = 50
    /\ phases_at 2 = Some ph
    /\ cue_textContent (dom s') = label ph.
Proof.
  exact (phase_after_ticks (sample_page "4" "60") false 1 4 60 9
           eq_refl eq_refl ltac:(lia) ltac:(simpl; lia)).
Defined.

End Session.

(** ** The fields of [fmt] *)

Section FormatFields.
Import JS.

Lemma digits_two (n : Z) :
  10 <= n < 100 ->
  digits n
  = String (digit_char (n / 10)) (String (digit_char (n mod 10)) EmptyString).
Proof.
  intros H. unfold digits.
  assert (L : 3 <= Z.log2 n).
  { change 3 with (Z.log2 8). apply Z.log2_le_mono. lia. }
  destruct (Z.to_nat (Z.log2 n)) as [|k] eqn:E; [lia|].
  cbn [digits_fuel].
  destruct (Z.ltb_spec n 10); [lia|].
  destruct (Z.ltb_spec (n / 10) 10) as [_|Hge].
  - rewrite (Z.mod_small (n / 10)); [reflexivity|].
    split; [apply Z.div_pos; lia|apply Z.div_lt_upper_bound; lia].
  - assert (n / 10 < 10) by (apply Z.div_lt_upper_bound; lia). lia.
Qed.

Lemma parseInt_zero_prefixed (n : Z) :
  0 <= n -> parseInt (String "0" (toString n)) = Some n.
Proof.
  intros H. unfold toString. destruct (Z.ltb_spec n 0); [lia|].
  destruct (digits_parse n H) as (c & r & E & Hd & _ & _ & _ & V).
  unfold parseInt. cbn [trim_start].
  change (is_white_space "0") with false. cbv iota.
  cbn [starts_with_digit]. change (is_digit "0") with true. cbv iota.
  cbn [digits_value]. change (is_digit "0") with true. cbv iota.
  change (10 * 0 + digit_value "0") with 0.
  rewrite V. f_equal. lia.
Qed.

Lemma two_digits_field (n : Z) :
  0 <= n ->
  (2 <= String.length (padStart (toString n) 2 "0"))%nat
  /\ (n < 100 -> String.length (padStart (toString n) 2 "0") = 2%nat)
  /\ parseInt (padStart (toString n) 2 "0") = Some n.
Proof.
  intros H. rewrite padStart_two by exact H.
  destruct (Z.ltb_spec n 10).
  - split; [|split].
    + unfold toString. destruct (Z.ltb_spec n 0); [lia|].
      rewrite digits_small by lia. simpl. lia.
    + intros _. unfold toString. destruct (Z.ltb_spec n 0); [lia|].
      rewrite digits_small by lia. reflexivity.
    + apply parseInt_zero_prefixed, H.
  - split; [|split].
    + unfold toString. destruct (Z.ltb_spec n 0); [lia|].
      apply digits_long. lia.
    + intros Hlt. unfold toString. destruct (Z.ltb_spec n 0); [lia|].
      rewrite digits_two by lia. reflexivity.
    + apply parseInt_toString.
Qed.

(** X15. [fmt s] is a minutes field, a colon and a seconds field.  The seconds
    field has exactly two characters and the minutes field at least two
    (exactly two below 100 minutes; there is no hours field, the minutes
    just grow); read back with [parseInt], the fields are the minutes and
    the seconds of the count clamped at 0, which add up to it. *)
Theorem fmt_fields_read_back (s : Z) :
  exists m ss,
    fmt s = m ++ ":" ++ ss
    /\ (2 <= String.length m)%nat
    /\ (s < 6000 -> String.length m = 2%nat)
    /\ String.length ss = 2%nat
    /\ exists mi se,
         parseInt m = Some mi /\ parseInt ss = Some se
         /\ 0 <= se < 60 /\ 60 * mi + se = Z.max 0 s.
Proof.
  unfold fmt, Math_max, Math_floor.
  assert (H0 : 0 <= Z.max 0 s) by lia.
  assert (Hm : 0 <= Z.max 0 s / 60) by (apply Z.div_pos; lia).
  assert (Hs : 0 <= Z.rem (Z.max 0 s) 60 < 60).
  { rewrite Z.rem_mod_nonneg by lia. apply Z.mod_pos_bound. lia. }
  destruct (two_digits_field _ Hm) as (Lm & Lm2 & Pm).
  destruct (two_digits_field (Z.rem (Z.max 0 s) 60) ltac:(lia))
    as (_ & Ls & Ps).
  eexists. eexists. split; [reflexivity|].
  split; [exact Lm|]. split.
  { intros Hlt. apply Lm2. apply Z.div_lt_upper_bound; lia. }
  split; [apply Ls; lia|].
  exists (Z.max 0 s / 60), (Z.rem (Z.max 0 s) 60).
  split; [exact Pm|]. split; [exact Ps|]. split; [exact Hs|].
  rewrite Z.rem_mod_nonneg by lia.
  pose proof (Z.div_mod (Z.max 0 s) 60). lia.
Qed.

End FormatFields.

(** ** The modals *)

Section Modals.
Import Modal.
Variable querySelector : State -> string -> query_result.
Variable focusables : elem -> list elem.
Variable videoModal : option elem.

Ltac run_modal :=
  cbv [openModal closeModal close_click escape_keydown video_escape_keydown
       video_close_click focus_trap keydown_event click_event
       set_hidden set_activeModal set_lastFocused set_body_overflow focus
       videoEl_pause closeSelectors fold_left
       activeModal lastFocused hidden body_overflow focus_calls pause_calls
       fst snd] in *.

Lemma closeModal_twice (s : State) : closeModal (closeModal s) = closeModal s.
Proof.
  unfold closeModal at 2 3. destruct (activeModal s) as [m|] eqn:E.
  - reflexivity.
  - unfold closeModal. now rewrite E.
Qed.

(** X16. Opening a modal and closing it: while open, the modal is shown, it is
    the active one and the body does not scroll; after [closeModal ()] no
    modal is active, the modal is hidden again, the [hidden] flag of every
    other node is what it was before the modal opened, the overflow of the
    body is the empty string (whatever it was before), and the last call
    of [focus ()] went to the element that had the focus when the modal
    opened. *)
Theorem open_then_close_restores (selector : string) (a : option elem)
  (s : State) (m : elem) :
  querySelector s selector = found m ->
  exists s1,
    openModal querySelector focusables selector a s = Some s1
    /\ activeModal s1 = Some m
    /\ hidden s1 m = false
    /\ body_overflow s1 = "hidden"
    /\ activeModal (closeModal s1) = None
    /\ hidden (closeModal s1) m = true
    /\ (forall e, e <> m -> hidden (closeModal s1) e = hidden s e)
    /\ body_overflow (closeModal s1) = EmptyString
    /\ (forall e, a = Some e ->
          hd_error (focus_calls (closeModal s1)) = Some e)
    /\ pause_calls (closeModal s1) = pause_calls s.
Proof.
  intros Hq. destruct s as [am lf hid ov fc pc].
  unfold openModal. rewrite Hq.
  destruct (hd_error (focusables m)) as [f|]; eexists;
    (split; [reflexivity|]); run_modal; rewrite ?Nat.eqb_refl;
    repeat match goal with |- _ /\ _ => split end;
    try reflexivity;
    try (intros e He; apply Nat.eqb_neq in He; destruct a;
         rewrite ?He; reflexivity);
    try (intros e ->; reflexivity);
    destruct a; rewrite ?Nat.eqb_refl; reflexivity.
Qed.

(** X17. The two [click] listeners of the document together close the active
    modal once when the target matches any of the two selectors, and do
    nothing otherwise: a second [closeModal ()] changes nothing. *)
Theorem close_listeners_close_once (target_matches : string -> bool)
  (s : State) :
  close_click target_matches s
  = (if existsb target_matches closeSelectors then closeModal s else s)
  /\ closeModal (closeModal s) = closeModal s.
Proof.
  split; [|apply closeModal_twice].
  unfold close_click, closeSelectors. cbn [fold_left existsb].
  destruct (target_matches "[data-close-modal]");
    destruct (target_matches "[data-close]"); cbn [orb];
    try reflexivity.
  apply closeModal_twice.
Qed.

(** X18. A modal opened while another one is open replaces it as the active
    modal, and [closeModal ()] then hides only the second: the first stays
    shown although the overflow of the body is reset and no modal is
    active, so that a further [closeModal ()] or Escape does nothing. *)
Theorem second_modal_orphans_first (selA selB : string)
  (a1 a2 : option elem) (s s1 : State) (mA mB : elem) :
  querySelector s selA = found mA ->
  openModal querySelector focusables selA a1 s = Some s1 ->
  querySelector s1 selB = found mB ->
  mA <> mB ->
  exists s2,
    openModal querySelector focusables selB a2 s1 = Some s2
    /\ activeModal s2 = Some mB
    /\ hidden (closeModal s2) mB = true
    /\ hidden (closeModal s2) mA = false
    /\ activeModal (closeModal s2) = None
    /\ body_overflow (closeModal s2) = EmptyString
    /\ closeModal (closeModal s2) = closeModal s2
    /\ escape_keydown "Escape" (closeModal s2) = (closeModal s2, false).
Proof.
  intros HqA E1 HqB Hne.
  assert (HA : hidden s1 mA = false).
  { destruct s as [am lf hid ov fc pc]. unfold openModal in E1.
    rewrite HqA in E1.
    destruct (hd_error (focusables mA)); injection E1 as <-;
      run_modal; now rewrite Nat.eqb_refl. }
  clear E1 HqA. destruct s1 as [am lf hid ov fc pc].
  unfold openModal. rewrite HqB.
  apply Nat.eqb_neq in Hne.
  cbn [activeModal hidden] in HA.
  destruct a2; destruct (hd_error (focusables mB)) as [f|]; eexists;
    (split; [reflexivity|]);
    (split; [reflexivity|]);
    (split; [run_modal; now rewrite Nat.eqb_refl|]);
    (split; [run_modal; rewrite !Hne; exact HA|]);
    (split; [reflexivity|]);
    (split; [reflexivity|]);
    (split; [apply closeModal_twice|]);
    reflexivity.
Qed.

Lemma closeModal_active (s : State) : activeModal (closeModal s) = None.
Proof.
  unfold closeModal. destruct (activeModal s) eqn:E; [reflexivity|exact E].
Qed.

Lemma focus_trap_keeps (key : string) (shiftKey : bool) (a : option elem)
  (s : State) :
  let s' := fst (focus_trap focusables key shiftKey a s) in
  activeModal s' = activeModal s
  /\ hidden s' = hidden s
  /\ body_overflow s' = body_overflow s
  /\ pause_calls s' = pause_calls s.
Proof.
  unfold focus_trap. destruct (activeModal s) as [m|] eqn:E; cbn [fst].
  - destruct (negb (String.eqb key "Tab")); cbn [fst]; [auto|].
    destruct (focusables m) as [|first rest]; cbn [fst]; [auto|].
    destruct (shiftKey && same_node a first); cbn [fst]; [auto|].
    destruct (negb shiftKey && same_node a (last rest first));
      cbn [fst]; auto.
  - auto.
Qed.

Lemma video_escape_keeps (key : string) (s : State) :
  let s' := video_escape_keydown videoModal key s in
  activeModal s' = activeModal s
  /\ hidden s' = hidden s
  /\ body_overflow s' = body_overflow s.
Proof.
  unfold video_escape_keydown. destruct videoModal as [vm|]; [|auto].
  destruct (String.eqb key "Escape" && negb (hidden s vm)); auto.
Qed.

Lemma shown_and_locked_closeModal (s : State) :
  shown_and_locked (closeModal s).
Proof. intros m H. rewrite closeModal_active in H. discriminate. Qed.

Lemma shown_and_locked_handle (e : event) (s s' : State) :
  shown_and_locked s ->
  handle querySelector focusables videoModal e s = Some s' ->
  shown_and_locked s'.
Proof.
  intros Hs H. destruct e as [sel a | | v tm | key sh a]; cbn [handle] in H.
  - unfold openModal in H. destruct (querySelector s sel) as [| |m];
      [discriminate | injection H as <-; exact Hs |].
    destruct s as [am lf hid ov fc pc].
    destruct (hd_error (focusables m)); injection H as <-;
      intros m' Hm'; run_modal; injection Hm' as <-;
      now rewrite Nat.eqb_refl.
  - injection H as <-. apply shown_and_locked_closeModal.
  - injection H as <-. unfold click_event.
    destruct (close_listeners_close_once tm
                (if v then video_close_click videoModal s else s))
      as [-> _].
    destruct (existsb tm closeSelectors);
      [apply shown_and_locked_closeModal|].
    destruct v; [|exact Hs].
    unfold video_close_click. destruct videoModal; exact Hs.
  - injection H as <-. unfold keydown_event.
    intros m Hm.
    destruct (focus_trap_keeps key sh a
                (video_escape_keydown videoModal key
                   (fst (escape_keydown key s)))) as (Ha & Hh & Ho & _).
    destruct (video_escape_keeps key (fst (escape_keydown key s)))
      as (Ha' & Hh' & Ho').
    rewrite Ha, Ha' in Hm. rewrite Hh, Hh', Ho, Ho'.
    unfold escape_keydown in *. destruct (activeModal s) as [m0|] eqn:E.
    + destruct (String.eqb key "Escape"); cbn [fst] in *.
      * rewrite closeModal_active in Hm. discriminate.
      * apply Hs. congruence.
    + cbn [fst] in *. congruence.
Qed.

(** X19. While a modal is the active one it is shown and the body does not
    scroll, after any sequence of calls and events from the loaded page. *)
Theorem active_modal_is_shown (s : State) (m : elem) :
  reachable querySelector focusables videoModal s ->
  activeModal s = Some m ->
  hidden s m = false /\ body_overflow s = "hidden".
Proof.
  intros Hr. revert m.
  change (shown_and_locked s).
  induction Hr as [s [Ha _] | s e s' _ IH H].
  - intros m Hm. congruence.
  - eapply shown_and_locked_handle; eassumption.
Qed.

(** X20. Escape on the active video modal closes it and never pauses the video:
    the listener of [modalController] runs first and hides the modal, and
    the listener of [videoPracticeController] then finds it hidden.  A click
    through a close element of the video modal does pause the video, and
    closes the modal when the target matches a close selector. *)
Theorem escape_closes_video_without_pause (vm : elem) (shiftKey : bool)
  (a : option elem) (tm : string -> bool) (s : State) :
  videoModal = Some vm ->
  activeModal s = Some vm ->
  (let s' := keydown_event focusables videoModal "Escape" shiftKey a s in
   pause_calls s' = pause_calls s
   /\ hidden s' vm = true
   /\ activeModal s' = None)
  /\ (let s' := click_event videoModal true tm s in
      pause_calls s' = S (pause_calls s)
      /\ (tm "[data-close-modal]" = true ->
          hidden s' vm = true /\ activeModal s' = None)).
Proof.
  intros Hv Ha. rewrite Hv. destruct s as [am lf hid ov fc pc].
  cbn [activeModal] in Ha. subst am. split.
  - unfold keydown_event, escape_keydown. cbn [activeModal].
    change (String.eqb "Escape" "Escape") with true. cbn [fst].
    assert (Hh : hidden (closeModal (mkModal (Some vm) lf hid ov fc pc)) vm
                 = true).
    { run_modal. destruct lf; run_modal; now rewrite Nat.eqb_refl. }
    assert (Hp : pause_calls (closeModal (mkModal (Some vm) lf hid ov fc pc))
                 = pc).
    { run_modal. destruct lf; reflexivity. }
    set (c := closeModal (mkModal (Some vm) lf hid ov fc pc)) in *.
    assert (Hc : activeModal c = None) by apply closeModal_active.
    unfold video_escape_keydown. rewrite Hh.
    change (String.eqb "Escape" "Escape" && negb true) with false.
    cbv iota. unfold focus_trap. rewrite Hc. cbn [fst pause_calls].
    repeat split; assumption.
  - unfold click_event, video_close_click.
    destruct (close_listeners_close_once tm
                (videoEl_pause (mkModal (Some vm) lf hid ov fc pc)))
      as [-> _].
    unfold closeSelectors. cbn [existsb].
    destruct (tm "[data-close-modal]"); cbn [orb].
    + run_modal. destruct lf; run_modal; rewrite Nat.eqb_refl;
        repeat split; reflexivity.
    + destruct (tm "[data-close]"); cbn [orb]; run_modal.
      * destruct lf; run_modal; split;
          [reflexivity | discriminate | reflexivity | discriminate].
      * split; [reflexivity|discriminate].
Qed.

(** X21. The focus trap calls [focus ()] only on a focusable element of the
    active modal, only on Tab, and otherwise leaves everything as it is;
    Tab on the last focusable element moves the focus to the first and
    Shift+Tab on the first moves it to the last. *)
Theorem focus_trap_wraps (key : string) (shiftKey : bool)
  (a : option elem) (s : State) :
  (focus_trap focusables key shiftKey a s = (s, false)
   \/ exists m f,
        activeModal s = Some m /\ key = "Tab" /\ In f (focusables m)
        /\ focus_trap focusables key shiftKey a s = (focus f s, true))
  /\ (forall m first rest,
        activeModal s = Some m ->
        focusables m = first :: rest ->
        focus_trap focusables "Tab" false (Some (last rest first)) s
        = (focus first s, true)
        /\ focus_trap focusables "Tab" true (Some first)
             (focus first s)
           = (focus (last rest first) (focus first s), true)).
Proof.
  split.
  - unfold focus_trap. destruct (activeModal s) as [m|] eqn:E; [|now left].
    destruct (String.eqb key "Tab") eqn:K; cbn [negb]; [|now left].
    apply String.eqb_eq in K.
    destruct (focusables m) as [|first rest] eqn:F; [now left|].
    assert (Hl : In (last rest first) (first :: rest)).
    { clear. induction rest as [|x r IH]; [now left|].
      destruct r as [|y r']; [right; now left|].
      change (last (x :: y :: r') first) with (last (y :: r') first).
      destruct IH as [IH|IH]; [now left|right; now right]. }
    destruct (shiftKey && same_node a first).
    + right. exists m, (last rest first). rewrite F. auto.
    + destruct (negb shiftKey && same_node a (last rest first)).
      * right. exists m, first. rewrite F. repeat split; auto. now left.
      * now left.
  - intros m first rest Ha Hf. unfold focus_trap.
    cbn [activeModal focus]. rewrite Ha, Hf.
    change (String.eqb "Tab" "Tab") with true.
    cbn [negb andb same_node]. rewrite !Nat.eqb_refl. split; reflexivity.
Qed.

End Modals.

Lemma open_then_close_restores_witness :
  exists s1,
    Modal.openModal Modal.sample_querySelector Modal.sample_focusables
      "#m" (Some 5%nat) Modal.sample_loaded = Some s1
    /\ Modal.hidden s1 10%nat = false
    /\ Modal.hidden (Modal.closeModal s1) 10%nat = true
    /\ hd_error (Modal.focus_calls (Modal.closeModal s1)) = Some 5%nat.
Proof.
  destruct (open_then_close_restores Modal.sample_querySelector
              Modal.sample_focusables "#m" (Some 5%nat) Modal.sample_loaded
              10%nat eq_refl)
    as (s1 & E & _ & H1 & _ & _ & H2 & _ & _ & H3 & _).
  exists s1. repeat split; try assumption. apply H3. reflexivity.
Defined.

Lemma second_modal_orphans_first_witness :
  exists s2,
    Modal.openModal Modal.sample_querySelector Modal.sample_focusables
      "#videoModal" (Some 11%nat) Modal.sample_opened = Some s2
    /\ Modal.hidden (Modal.closeModal s2) 20%nat = true
    /\ Modal.hidden (Modal.closeModal s2) 10%nat = false
    /\ Modal.activeModal (Modal.closeModal s2) = None.
Proof.
  destruct (second_modal_orphans_first Modal.sample_querySelector
              Modal.sample_focusables "#m" "#videoModal"
              (Some 5%nat) (Some 11%nat) Modal.sample_loaded
              Modal.sample_opened 10%nat 20%nat
              eq_refl eq_refl eq_refl ltac:(discriminate))
    as (s2 & E & _ & H1 & H2 & H3 & _).
  exists s2. repeat split; assumption.
Defined.

Lemma sample_opened_reachable :
  Modal.reachable Modal.sample_querySelector Modal.sample_focusables
    (Some 20%nat) Modal.sample_opened.
Proof.
  apply (Modal.reach_handle _ _ _ Modal.sample_loaded
           (Modal.open "#m" (Some 5%nat)));
    [apply Modal.reach_loaded; split; reflexivity|reflexivity].
Qed.

Lemma active_modal_is_shown_witness :
  Modal.hidden Modal.sample_opened 10%nat = false
  /\ Modal.body_overflow Modal.sample_opened = "hidden".
Proof.
  exact (active_modal_is_shown Modal.sample_querySelector
           Modal.sample_focusables (Some 20%nat) Modal.sample_opened
           10%nat sample_opened_reachable eq_refl).
Defined.

Lemma escape_closes_video_without_pause_witness :
  Modal.pause_calls
    (Modal.keydown_event Modal.sample_focusables (Some 20%nat) "Escape"
       false (Some 21%nat) Modal.sample_video_opened) = 0%nat
  /\ Modal.hidden
       (Modal.keydown_event Modal.sample_focusables (Some 20%nat) "Escape"
          false (Some 21%nat) Modal.sample_video_opened) 20%nat = true
  /\ Modal.pause_calls
       (Modal.click_event (Some 20%nat) true
          (String.eqb "[data-close-modal]") Modal.sample_video_opened)
     = 1%nat.
Proof.
  destruct (escape_closes_video_without_pause Modal.sample_focusables
              (Some 20%nat) 20%nat false (Some 21%nat)
              (String.eqb "[data-close-modal]") Modal.sample_video_opened
              eq_refl eq_refl) as ((H1 & H2 & _) & (H3 & _)).
  repeat split; assumption.
Defined.

Lemma focus_trap_wraps_witness :
  Modal.focus_trap Modal.sample_focusables "Tab" false (Some 13%nat)
    Modal.sample_opened
  = (Modal.focus 11%nat Modal.sample_opened, true)
  /\ Modal.focus_trap Modal.sample_focusables "Tab" true (Some 11%nat)
       (Modal.focus 11%nat Modal.sample_opened)
     = (Modal.focus 13%nat (Modal.focus 11%nat Modal.sample_opened), true).
Proof.
  destruct (focus_trap_wraps Modal.sample_focusables "Tab" false None
              Modal.sample_opened) as [_ H].
  exact (H 10%nat 11%nat [12; 13]%nat eq_refl eq_refl).
Defined.

Lemma fmt_fields_read_back_witness :
  exists m ss,
    fmt 3599 = m ++ ":" ++ ss
    /\ String.length m = 2%nat
    /\ String.length ss = 2%nat.
Proof.
  destruct (fmt_fields_read_back 3599) as (m & ss & E & _ & Hm & Hs & _).
  exists m, ss. split; [exact E|]. split; [apply Hm; lia|exact Hs].
Defined.
